(** * torch_lr_finder: the learning-rate range test

    A shallow embedding of [torch_lr_finder/lr_finder.py] and the
    properties of its schedules, its sweep loop and its analyzer.

    Number model.  Python [int] is [Z].  In the driver and the analyzer a
    Python [float] is modelled by the real numbers [R]: arithmetic is
    exact, there is no rounding, no infinity and no NaN, and comparisons
    of floats are the decidable order of [R] ([Rlt_dec], [Req_dec_T]); the
    properties stated on this model are about the structure of a run and
    about the expressions the code evaluates, not about their rounding.
    The module [Binary64] has the two schedules in binary64 arithmetic, for
    what depends on rounding.  Operations that raise in Python (division by
    zero, indexing out of range) return [Raise]. *)

From Stdlib Require Import Reals Lra Lia ZArith List String Ascii Bool.
From Stdlib Require DecimalString Floats.
Import ListNotations.

Open Scope R_scope.

(** ** Exceptions and results *)

Inductive exn : Type :=
| ValueError (msg : string)
| RuntimeError (msg : string)
| NotImplementedError (msg : string)
| ZeroDivisionError
| IndexError
| TypeError
| KeyError
| StopIteration
| ComplexResult.
(* [ComplexResult] is not a Python exception: it marks a float power
   whose value is a complex number, which leaves the float model. *)

Inductive result (A : Type) : Type :=
| Ok (a : A)
| Raise (e : exn).
Arguments Ok {A} a.
Arguments Raise {A} e.

Definition rbind {A B} (r : result A) (k : A -> result B) : result B :=
  match r with
  | Ok a => k a
  | Raise e => Raise e
  end.

(** A list comprehension whose element expression may raise: the first
    failing element aborts the whole comprehension. *)
Fixpoint comprehension {A B} (f : A -> result B) (xs : list A) : result (list B) :=
  match xs with
  | [] => Ok []
  | x :: xs' =>
      rbind (f x) (fun y => rbind (comprehension f xs') (fun ys => Ok (y :: ys)))
  end.

(** ** Float operations *)

(** [a / b] on floats, and on two ints (true division). *)
Definition truediv (a b : R) : result R :=
  if Req_dec_T b 0 then Raise ZeroDivisionError else Ok (a / b).

(** [a < b], [a > b] and [a >= b] on floats. *)
Definition float_lt (a b : R) : bool := if Rlt_dec a b then true else false.
Definition float_gt (a b : R) : bool := float_lt b a.
Definition float_ge (a b : R) : bool := if Rle_dec b a then true else false.

(** [x ** y] on floats.  A positive base gives the real power; a zero or
    negative base follows CPython's [float_pow]. *)
Definition float_pow (x y : R) : result R :=
  if Rlt_dec 0 x then Ok (Rpower x y)
  else if Req_dec_T y 0 then Ok 1
  else if Req_dec_T x 0 then
    (if Rlt_dec 0 y then Ok 0 else Raise ZeroDivisionError)
  else if Req_dec_T y (IZR (Int_part y)) then Ok (powerRZ x (Int_part y))
  else Raise ComplexResult.

(** ** Strings: [str.lower] on ASCII letters *)

Definition lower_ascii (c : ascii) : ascii :=
  let n := nat_of_ascii c in
  if andb (Nat.leb 65 n) (Nat.leb n 90) then ascii_of_nat (n + 32) else c.

Fixpoint lower (s : string) : string :=
  match s with
  | EmptyString => EmptyString
  | String c s' => String (lower_ascii c) (lower s')
  end.

(** ** The optimizer's parameter groups

    A parameter group is a dict; the code reads and writes its ["lr"] key
    and tests for its ["initial_lr"] key. *)

Record param_group : Type := mk_group {
  lr : R;
  initial_lr : option R
}.

Definition has_initial_lr (g : param_group) : bool :=
  match initial_lr g with Some _ => true | None => false end.

(** [param_group["lr"] = v] *)
Definition set_lr (g : param_group) (v : R) : param_group :=
  {| lr := v; initial_lr := initial_lr g |}.

(** [group.setdefault('initial_lr', group['lr'])] *)
Definition setdefault_initial_lr (g : param_group) : param_group :=
  match initial_lr g with
  | Some _ => g
  | None => {| lr := lr g; initial_lr := Some (lr g) |}
  end.

(** [for param_group, lr in zip(param_groups, lrs): param_group["lr"] = lr] *)
Fixpoint assign_lrs (groups : list param_group) (lrs : list R) : list param_group :=
  match groups, lrs with
  | g :: gs, v :: vs => set_lr g v :: assign_lrs gs vs
  | _, _ => groups
  end.

(** ** The schedules *)

Inductive policy : Type := LinearLR_class | ExponentialLR_class.

Record scheduler : Type := mk_scheduler {
  cls : policy;
  end_lr : R;
  num_iter : Z;
  base_lrs : list R;
  last_epoch : Z
}.

Definition with_last_epoch (s : scheduler) (e : Z) : scheduler :=
  {| cls := cls s; end_lr := end_lr s; num_iter := num_iter s;
     base_lrs := base_lrs s; last_epoch := e |}.

(** ** Python values of the arguments *)

(** [start_lr], when it is not [None]: a float or a list of floats. *)
Inductive lr_value : Type :=
| Scalar (x : R)
| PerGroup (xs : list R).

(** Truth value of a float or a list in an [if]. *)
Definition truthy (v : lr_value) : bool :=
  match v with
  | Scalar x => if Req_dec_T x 0 then false else true
  | PerGroup [] => false
  | PerGroup (_ :: _) => true
  end.

(** [xs[i]] for a non-negative index. *)
Definition index {A} (xs : list A) (i : nat) : result A :=
  match nth_error xs i with
  | Some x => Ok x
  | None => Raise IndexError
  end.

(** [xs[-1]] *)
Fixpoint last_item {A} (xs : list A) : result A :=
  match xs with
  | [] => Raise IndexError
  | [x] => Ok x
  | _ :: xs' => last_item xs'
  end.

(** [xs[start:stop]] with step 1: a negative bound counts from the end,
    and both bounds are clamped to the length. *)
Definition slice_bound (n i : Z) : Z :=
  if (i <? 0)%Z then Z.max (i + n) 0 else Z.min i n.

Definition slice {A} (xs : list A) (start : Z) (stop : option Z) : list A :=
  let n := Z.of_nat (List.length xs) in
  let lo := slice_bound n start in
  let hi := match stop with
            | Some b => slice_bound n b
            | None => n
            end in
  firstn (Z.to_nat (hi - lo)) (skipn (Z.to_nat lo) xs).

(** ** The two numpy calls of the analyzer *)

(** Modelled from the spec: [np.gradient] and [argmin] come from numpy and
    are not part of the sources.  The spec says: a discrete numerical
    gradient with central differences in the interior and forward and
    backward differences at the boundaries; fewer than 2 points give no
    gradient (numpy raises [ValueError]); the index of its minimum is
    returned (the first one, as numpy's [argmin] does). *)
Definition gradient (f : list R) : result (list R) :=
  let n := List.length f in
  if (n <? 2)%nat then
    Raise (ValueError "Shape of array too small to calculate a numerical gradient")
  else
    Ok (map (fun i =>
               if (i =? 0)%nat then nth 1 f 0 - nth 0 f 0
               else if (i =? n - 1)%nat then nth (n - 1) f 0 - nth (n - 2) f 0
               else (nth (i + 1) f 0 - nth (i - 1) f 0) / 2)
            (seq 0 n)).

(** Modelled from the spec: [ndarray.argmin], the index of the minimum,
    the first one when it is attained more than once. *)
Fixpoint argmin_from (xs : list R) (i best_i : nat) (best : R) : nat :=
  match xs with
  | [] => best_i
  | x :: xs' =>
      if float_lt x best then argmin_from xs' (S i) i x
      else argmin_from xs' (S i) best_i best
  end.

(** Modelled from the spec: [argmin] of an array; numpy raises [ValueError]
    on an empty one. *)
Definition argmin (xs : list R) : result nat :=
  match xs with
  | [] => Raise (ValueError "attempt to get argmin of an empty sequence")
  | x :: xs' => Ok (argmin_from xs' 1 0 x)
  end.

(** The [show_lr] argument of [plot]: [None], a float, or anything else. *)
Inductive show_lr_arg : Type :=
| ShowNone
| ShowFloat (x : R)
| ShowOther.

(** What [plot] hands to the axes and what it returns: the series given to
    [ax.plot], the point given to [ax.scatter] if any, and the suggested
    learning rate when the return value is the pair [(ax, lr)]; [None]
    stands for the return value [ax] alone. *)
Record plot_output : Type := mk_plot_output {
  plotted_lrs : list R;
  plotted_losses : list R;
  scattered : option (R * R);
  suggested : option R
}.

(** ** The matplotlib call of the analyzer *)

(** The shape of a one-dimensional array as numpy prints it. *)
Definition shape_of {A} (xs : list A) : string :=
  String.append "("
    (String.append (DecimalString.NilZero.string_of_uint (Nat.to_uint (List.length xs)))
       ",)").

(** Modelled from the spec: the rendering backend is a collaborator that is
    handed the x/y series; [ax.plot] comes from matplotlib and is not part
    of the sources.  It draws two series of the same length and raises
    [ValueError] when their lengths differ. *)
Definition ax_plot {A} (xs ys : list A) : result unit :=
  if (List.length xs =? List.length ys)%nat then Ok tt
  else Raise (ValueError
         (String.append "x and y must have same first dimension, but have shapes "
            (String.append (shape_of xs) (String.append " and " (shape_of ys))))).

(** ** A scripted executor, for concrete runs

    The world is the list of losses still to come: [_step] returns the
    next one and raises [StopIteration] when none is left; [_reset] does
    nothing. *)
Definition scripted_step (w : list R) : list R * result R :=
  match w with
  | loss :: w' => (w', Ok loss)
  | [] => ([], Raise StopIteration)
  end.

Definition scripted_reset (w : list R) : list R * result unit := (w, Ok tt).

(** A reset for the scripted executor that rewinds the world to the
    losses [data], as an iterator over a finite data source does. *)
Definition scripted_rewind (data : list R) (w : list R) : list R * result unit :=
  (data, Ok tt).

(** ** Nested batches and [Step._move_to_device]

    A batch is a tree: an object that has the attribute [to] (a tensor), a
    tuple, a list, a dict (its items in insertion order) or any other
    object. *)
#[warnings="-register-all"]
Inductive pyobj (tensor key leaf : Type) : Type :=
| HasTo (t : tensor)
| PyTuple (xs : list (pyobj tensor key leaf))
| PyList (xs : list (pyobj tensor key leaf))
| PyDict (items : list (key * pyobj tensor key leaf))
| Leaf (a : leaf).
Arguments HasTo {tensor key leaf} t.
Arguments PyTuple {tensor key leaf} xs.
Arguments PyList {tensor key leaf} xs.
Arguments PyDict {tensor key leaf} items.
Arguments Leaf {tensor key leaf} a.

Section MoveToDevice.

Variables tensor device key leaf : Type.

(** [obj.to(device, non_blocking=non_blocking)], the method of the
    collaborator; what it returns has the attribute [to] again. *)
Variable to_ : tensor -> device -> bool -> tensor.

(** The inner function [move] of [_move_to_device]. *)
Fixpoint move (obj : pyobj tensor key leaf) (d : device) (non_blocking : bool)
  : pyobj tensor key leaf :=
  match obj with
  | HasTo t => HasTo (to_ t d non_blocking)
  | PyTuple xs => PyTuple (map (fun o => move o d non_blocking) xs)
  | PyList xs => PyList (map (fun o => move o d non_blocking) xs)
  | PyDict items =>
      PyDict (map (fun kv => (fst kv, move (snd kv) d non_blocking)) items)
  | Leaf a => Leaf a
  end.

(** [Step._move_to_device]; the generator it returns is the list of its
    elements. *)
Definition _move_to_device (things : list (pyobj tensor key leaf)) (d : device)
    (non_blocking : bool) : list (pyobj tensor key leaf) :=
  map (fun i => move i d non_blocking) things.

(** The objects with the attribute [to] inside a batch, from left to
    right. *)
Fixpoint movables (obj : pyobj tensor key leaf) : list tensor :=
  match obj with
  | HasTo t => [t]
  | PyTuple xs => flat_map movables xs
  | PyList xs => flat_map movables xs
  | PyDict items => flat_map (fun kv => movables (snd kv)) items
  | Leaf _ => []
  end.

(** A batch with its tensors erased: the containers, the keys and the
    other objects. *)
Fixpoint shape (obj : pyobj tensor key leaf) : pyobj unit key leaf :=
  match obj with
  | HasTo _ => HasTo tt
  | PyTuple xs => PyTuple (map shape xs)
  | PyList xs => PyList (map shape xs)
  | PyDict items => PyDict (map (fun kv => (fst kv, shape (snd kv))) items)
  | Leaf a => Leaf a
  end.

End MoveToDevice.

Arguments move {tensor device key leaf} to_ obj d non_blocking.
Arguments _move_to_device {tensor device key leaf} to_ things d non_blocking.
Arguments movables {tensor key leaf} obj.
Arguments shape {tensor key leaf} obj.

(** ** The schedules in binary64 arithmetic

    The two [get_lr] methods once more, on IEEE 754 binary64 floats with
    their rounding, infinities and NaN, for the properties that depend on
    the arithmetic: the kernel's primitive floats are Python's floats. *)

Module Binary64.

Import PrimFloat SpecFloat FloatOps.
Local Open Scope float_scope.

(** A Python [int] as a float: the nearest float, ties to even, which is
    the int itself up to [2 ^ 53]; an int beyond the largest float, for
    which Python raises [OverflowError], is an infinity here. *)
Definition of_int (z : Z) : float :=
  SF2Prim (binary_normalize prec emax z 0 false).

(** [a / b] on two ints: the quotient rounded to the nearest float, which
    for ints up to [2 ^ 53] is the quotient of the two floats. *)
Definition int_truediv (a b : Z) : result float :=
  if (b =? 0)%Z then Raise ZeroDivisionError else Ok (of_int a / of_int b).

(** [a / b] on two floats. *)
Definition truediv (a b : float) : result float :=
  if b =? 0 then Raise ZeroDivisionError else Ok (a / b).

(** A float power is a float or, for a negative base with a fractional
    exponent, a complex number. *)
Inductive number : Type :=
| Float (x : float)
| Complex (re im : float).

(** [base_lr * p]: a float times a float, or a float, converted to the
    complex number [base_lr + 0j], times a complex number. *)
Definition mul_number (b : float) (p : number) : number :=
  match p with
  | Float x => Float (b * x)
  | Complex re im => Complex (b * re - 0 * im) (b * im + 0 * re)
  end.

Section Schedules.

(** [PYTORCH_VERSION < version.parse("1.1.0")] *)
Variable legacy : bool.

(** [x ** y] on two floats, which CPython computes with the [pow] of the
    platform's C library; it can raise [OverflowError] and
    [ZeroDivisionError]. *)
Variable float_pow : float -> float -> result number.

(** The ratio [r] both [get_lr] methods start with. *)
Definition ratio (num_iter last_epoch : Z) : result float :=
  if legacy then
    let curr_iter := (last_epoch + 1)%Z in
    int_truediv curr_iter (num_iter - 1)
  else
    int_truediv last_epoch (num_iter - 1).

(** [LinearLR.get_lr] *)
Definition LinearLR_get_lr (end_lr : float) (num_iter last_epoch : Z)
    (base_lrs : list float) : result (list float) :=
  rbind (ratio num_iter last_epoch) (fun r =>
    comprehension (fun base_lr => Ok (base_lr + r * (end_lr - base_lr)))
                  base_lrs).

(** [ExponentialLR.get_lr] *)
Definition ExponentialLR_get_lr (end_lr : float) (num_iter last_epoch : Z)
    (base_lrs : list float) : result (list number) :=
  rbind (ratio num_iter last_epoch) (fun r =>
    comprehension
      (fun base_lr =>
         rbind (truediv end_lr base_lr) (fun q =>
         rbind (float_pow q r) (fun p => Ok (mul_number base_lr p))))
      base_lrs).

End Schedules.

End Binary64.


Section LRFinder.

(** [PYTORCH_VERSION < version.parse("1.1.0")] *)
Variable legacy : bool.

(** The state of the external collaborators (model, data loaders): the
    step executors act on it and the driver never looks inside. *)
Variable W : Type.

(** The ratio [r] both [get_lr] methods start with. *)
Definition ratio (s : scheduler) : result R :=
  if legacy then
    let curr_iter := (last_epoch s + 1)%Z in
    truediv (IZR curr_iter) (IZR (num_iter s - 1))
  else
    truediv (IZR (last_epoch s)) (IZR (num_iter s - 1)).

(** [LinearLR.get_lr] *)
Definition LinearLR_get_lr (s : scheduler) : result (list R) :=
  rbind (ratio s) (fun r =>
    comprehension (fun base_lr => Ok (base_lr + r * (end_lr s - base_lr)))
                  (base_lrs s)).

(** [ExponentialLR.get_lr] *)
Definition ExponentialLR_get_lr (s : scheduler) : result (list R) :=
  rbind (ratio s) (fun r =>
    comprehension
      (fun base_lr =>
         rbind (truediv (end_lr s) base_lr) (fun q =>
         rbind (float_pow q r) (fun p => Ok (base_lr * p))))
      (base_lrs s)).

(** Method dispatch on the schedule's class. *)
Definition get_lr (s : scheduler) : result (list R) :=
  match cls s with
  | LinearLR_class => LinearLR_get_lr s
  | ExponentialLR_class => ExponentialLR_get_lr s
  end.

(** The value of [last_epoch] at which the schedule is at iteration
    index [i]: the index is [last_epoch + 1] before PyTorch 1.1.0 and
    [last_epoch] from then on. *)
Definition epoch_of_iteration (i : Z) : Z :=
  if legacy then (i - 1)%Z else i.

(** ** Step executors *)

(** A user's subclass of [Step]: its [_step] and [_reset] methods. *)
Record Step : Type := mk_Step {
  _step : W -> W * result R;
  _reset : W -> W * result unit
}.

(** [Step.step]: on [StopIteration], reset once and run [_step] again. *)
Definition step (s : Step) (w : W) : W * result R :=
  match _step s w with
  | (w1, Raise StopIteration) =>
      match _reset s w1 with
      | (w2, Ok _) => _step s w2
      | (w2, Raise e) => (w2, Raise e)
      end
  | out => out
  end.

(** ** The finder and the program state *)

(** [self.history = {"lr": [...], "loss": [...]}] is the pair of fields
    [history_lr], [history_loss]; [world] is the collaborators' state. *)
Record state : Type := mk_state {
  train_step : Step;
  val_step : option Step;
  optimizer : list param_group;
  history_lr : list R;
  history_loss : list R;
  best_loss : option R;
  world : W
}.

Definition set_optimizer (st : state) (o : list param_group) : state :=
  mk_state (train_step st) (val_step st) o (history_lr st) (history_loss st)
           (best_loss st) (world st).
Definition set_history_lr (st : state) (h : list R) : state :=
  mk_state (train_step st) (val_step st) (optimizer st) h (history_loss st)
           (best_loss st) (world st).
Definition set_history_loss (st : state) (h : list R) : state :=
  mk_state (train_step st) (val_step st) (optimizer st) (history_lr st) h
           (best_loss st) (world st).
Definition set_best_loss (st : state) (b : option R) : state :=
  mk_state (train_step st) (val_step st) (optimizer st) (history_lr st)
           (history_loss st) b (world st).
Definition set_world (st : state) (w : W) : state :=
  mk_state (train_step st) (val_step st) (optimizer st) (history_lr st)
           (history_loss st) (best_loss st) w.

(** Computations that mutate the state and may raise; the state reached
    when an exception is raised is kept. *)
Definition M (A : Type) : Type := state -> state * result A.

Definition ret {A} (a : A) : M A := fun st => (st, Ok a).
Definition raise {A} (e : exn) : M A := fun st => (st, Raise e).
Definition bind {A B} (m : M A) (k : A -> M B) : M B :=
  fun st =>
    match m st with
    | (st1, Ok a) => k a st1
    | (st1, Raise e) => (st1, Raise e)
    end.
Definition lift {A} (r : result A) : M A := fun st => (st, r).
Definition gets {A} (f : state -> A) : M A := fun st => (st, Ok (f st)).
Definition modify (f : state -> state) : M unit := fun st => (f st, Ok tt).

Notation "x <- m ;; k" := (bind m (fun x => k))
  (at level 61, m at next level, right associativity).
Notation "m ;;; k" := (bind m (fun _ => k))
  (at level 61, right associativity).

(** Calling an executor's [step()]. *)
Definition call_step (s : Step) : M R :=
  fun st => let (w, r) := step s (world st) in (set_world st w, r).

(** ** The base class of the schedules *)

(** Modelled from the spec: the base class [_LRScheduler] comes from
    [torch.optim.lr_scheduler] and is not part of the sources.  The spec
    says that a parameter group holds a base learning rate captured once,
    at schedule-construction time, that a group which already carries it
    is recognised by its ["initial_lr"] field, and that each step
    increments the iteration counter and re-derives every group's
    learning rate from the captured base rate.  The initial step of the
    constructor and the treatment of [last_epoch] before PyTorch 1.1.0
    follow the library. *)
Definition assign_from_get_lr (s : scheduler) : M unit :=
  lrs <- lift (get_lr s) ;;
  modify (fun st => set_optimizer st (assign_lrs (optimizer st) lrs)).

(** Modelled from the spec: [_LRScheduler.step()], called as
    [lr_schedule.step()]: the iteration counter is incremented and every
    group's learning rate is re-derived from its captured base rate. *)
Definition LRScheduler_step (s : scheduler) : M scheduler :=
  let s' := with_last_epoch s (last_epoch s + 1) in
  assign_from_get_lr s' ;;;
  ret s'.

(** Modelled from the spec: [_LRScheduler.__init__(optimizer, last_epoch=-1)],
    called by both schedules once [end_lr] and [num_iter] are stored: every
    group captures its base rate under ["initial_lr"], the base rates are
    read from there, and the constructor takes the initial step. *)
Definition LRScheduler_init (c : policy) (end_lr : R) (num_iter : Z) : M scheduler :=
  modify (fun st => set_optimizer st (map setdefault_initial_lr (optimizer st))) ;;;
  groups <- gets optimizer ;;
  base_lrs <- lift (comprehension
                      (fun g => match initial_lr g with
                                | Some v => Ok v
                                | None => Raise KeyError
                                end) groups) ;;
  let s := mk_scheduler c end_lr num_iter base_lrs (-1) in
  if legacy then
    (* self.step(last_epoch + 1); self.last_epoch = last_epoch *)
    assign_from_get_lr (with_last_epoch s 0) ;;;
    ret s
  else
    LRScheduler_step s.

(** [LinearLR.__init__] and [ExponentialLR.__init__] *)
Definition schedule_init (c : policy) (end_lr : R) (num_iter : Z) : M scheduler :=
  if (num_iter <=? 1)%Z then
    raise (ValueError "`num_iter` must be larger than 1")
  else
    LRScheduler_init c end_lr num_iter.

Definition LinearLR_init := schedule_init LinearLR_class.
Definition ExponentialLR_init := schedule_init ExponentialLR_class.

(** ** The driver *)

(** [LRFinder._check_for_scheduler] *)
Fixpoint check_groups (groups : list param_group) : result unit :=
  match groups with
  | [] => Ok tt
  | param_group :: rest =>
      if has_initial_lr param_group then
        Raise (RuntimeError "Optimizer already has a scheduler attached to it")
      else check_groups rest
  end.

Definition _check_for_scheduler : M unit :=
  groups <- gets optimizer ;;
  lift (check_groups groups).

(** [LRFinder._set_learning_rate] *)
Definition _set_learning_rate (new_lrs : lr_value) : M unit :=
  groups <- gets optimizer ;;
  let new_lrs :=
    match new_lrs with
    | Scalar x => repeat x (List.length groups)
    | PerGroup xs => xs
    end in
  if negb (List.length new_lrs =? List.length groups)%nat then
    raise (ValueError
      "Length of `new_lrs` is not equal to the number of parameter groups in the given optimizer")
  else
    modify (fun st => set_optimizer st (assign_lrs (optimizer st) new_lrs)).

(** The bookkeeping of one iteration once the loss is known: lines
    213-220 of the source.  Returns the loss to record. *)
Definition track_loss (smooth_f : R) (iteration : Z) (loss : R) : M R :=
  if (iteration =? 0)%Z then
    modify (fun st => set_best_loss st (Some loss)) ;;;
    ret loss
  else
    loss <- (if float_gt smooth_f 0 then
               losses <- gets history_loss ;;
               prev <- lift (last_item losses) ;;
               ret (smooth_f * loss + (1 - smooth_f) * prev)
             else ret loss) ;;
    best <- gets best_loss ;;
    match best with
    | None => raise TypeError
    | Some b =>
        (if float_lt loss b then modify (fun st => set_best_loss st (Some loss))
         else ret tt) ;;;
        ret loss
    end.

(** Lines 209-226, the part of the loop body that follows the executors:
    the boolean tells whether it ended in [break]. *)
Definition record_iteration (smooth_f diverge_th : R) (iteration : Z)
    (lr_schedule : scheduler) (loss : R) : M (scheduler * bool) :=
  lrs <- lift (get_lr lr_schedule) ;;
  lr0 <- lift (index lrs 0) ;;
  modify (fun st => set_history_lr st (history_lr st ++ [lr0])) ;;;
  lr_schedule <- LRScheduler_step lr_schedule ;;
  loss <- track_loss smooth_f iteration loss ;;
  modify (fun st => set_history_loss st (history_loss st ++ [loss])) ;;;
  best <- gets best_loss ;;
  match best with
  | None => raise TypeError
  | Some b =>
      if float_gt loss (diverge_th * b) then ret (lr_schedule, true)
      else ret (lr_schedule, false)
  end.

(** The body of the [for] loop. *)
Definition iteration_body (smooth_f diverge_th : R) (iteration : Z)
    (lr_schedule : scheduler) : M (scheduler * bool) :=
  train <- gets train_step ;;
  loss <- call_step train ;;
  val <- gets val_step ;;
  loss <- (match val with
           | Some v => call_step v
           | None => ret loss
           end) ;;
  record_iteration smooth_f diverge_th iteration lr_schedule loss.

(** [for iteration in range(...)]: [n] iterations are left, the next one
    has index [iteration]. *)
Fixpoint for_range (smooth_f diverge_th : R) (n : nat) (iteration : Z)
    (lr_schedule : scheduler) : M unit :=
  match n with
  | O => ret tt
  | S n' =>
      out <- iteration_body smooth_f diverge_th iteration lr_schedule ;;
      if snd out then ret tt
      else for_range smooth_f diverge_th n' (iteration + 1) (fst out)
  end.

(** Lines 181-201 of [range_test]: everything before the loop. *)
Definition range_test_setup (start_lr : option lr_value) (end_lr : R) (num_iter : Z)
    (step_mode : string) (smooth_f : R) : M scheduler :=
  modify (fun st => set_history_loss (set_history_lr st []) []) ;;;
  modify (fun st => set_best_loss st None) ;;;
  _check_for_scheduler ;;;
  (match start_lr with
   | Some v => if truthy v then _set_learning_rate v else ret tt
   | None => ret tt
   end) ;;;
  lr_schedule <-
    (if (lower step_mode =? "exp")%string then
       ExponentialLR_init end_lr num_iter
     else if (lower step_mode =? "linear")%string then
       LinearLR_init end_lr num_iter
     else
       raise (ValueError
                (String.append "expected one of (exp, linear), got " step_mode))) ;;
  (if float_lt smooth_f 0 || float_ge smooth_f 1 then
     raise (ValueError "smooth_f is outside the range [0, 1[")
   else ret tt) ;;;
  ret lr_schedule.

(** [LRFinder.range_test] *)
Definition range_test (start_lr : option lr_value) (end_lr : R) (num_iter : Z)
    (step_mode : string) (smooth_f diverge_th : R) : M unit :=
  lr_schedule <- range_test_setup start_lr end_lr num_iter step_mode smooth_f ;;
  for_range smooth_f diverge_th (Z.to_nat num_iter) 0 lr_schedule.

(** [LRFinder.__init__] *)
Definition LRFinder_init (opt : list param_group) (train : Step)
    (val : option Step) (w : W) : state * result unit :=
  let st := mk_state train val opt [] [] None w in
  match check_groups opt with
  | Ok _ => (st, Ok tt)
  | Raise e => (st, Raise e)
  end.

(** ** The analyzer *)

(** The trimming of one series: lines 291-296. *)
Definition trim {A} (skip_start skip_end : Z) (xs : list A) : list A :=
  if (skip_end =? 0)%Z then slice xs skip_start None
  else slice xs skip_start (Some (- skip_end)%Z).

(** The [try] block of lines 310-316: [None] when numpy raised
    [ValueError], any other exception propagates. *)
Definition steepest (losses : list R) : result (option nat) :=
  match rbind (gradient losses) argmin with
  | Ok i => Ok (Some i)
  | Raise (ValueError _) => Ok None
  | Raise e => Raise e
  end.

(** [LRFinder.plot]; [log_lr] and [ax] only affect the display. *)
Definition plot (skip_start skip_end : Z) (show_lr : show_lr_arg)
    (suggest_lr : bool) (st : state) : result plot_output :=
  if (skip_start <? 0)%Z then Raise (ValueError "skip_start cannot be negative")
  else if (skip_end <? 0)%Z then Raise (ValueError "skip_end cannot be negative")
  else
    match show_lr with
    | ShowOther => Raise (ValueError "show_lr must be float")
    | _ =>
        let lrs := trim skip_start skip_end (history_lr st) in
        let losses := trim skip_start skip_end (history_loss st) in
        rbind (ax_plot lrs losses) (fun _ =>
        rbind (if suggest_lr then steepest losses else Ok None)
          (fun min_grad_idx =>
        rbind (match min_grad_idx with
               | Some i =>
                   rbind (index lrs i) (fun x =>
                   rbind (index losses i) (fun y => Ok (Some (x, y))))
               | None => Ok None
               end) (fun point =>
        (* if suggest_lr and min_grad_idx: an index 0 is falsy *)
        match (if suggest_lr then min_grad_idx else None) with
        | Some (S i) =>
            rbind (index lrs (S i)) (fun x =>
              Ok (mk_plot_output lrs losses point (Some x)))
        | _ => Ok (mk_plot_output lrs losses point None)
        end)))
    end.

(** ** Specification-level notions used by the statements *)

(** The loss one iteration works with (lines 205-207): the training
    executor runs first, and the validation executor's loss replaces the
    training loss when there is one. *)
Definition one_loss (train : Step) (val : option Step) (w : W) : W * result R :=
  match step train w with
  | (w1, Ok loss) =>
      match val with
      | Some v => step v w1
      | None => (w1, Ok loss)
      end
  | (w1, Raise e) => (w1, Raise e)
  end.

(** The raw losses of the first [n] iterations from the world [w], as
    far as the executors return, and the world they leave. *)
Fixpoint raw_losses (train : Step) (val : option Step) (n : nat) (w : W) : list R :=
  match n with
  | O => []
  | S n' =>
      match one_loss train val w with
      | (w1, Ok loss) => loss :: raw_losses train val n' w1
      | (_, Raise _) => []
      end
  end.

Fixpoint world_after (train : Step) (val : option Step) (n : nat) (w : W) : W :=
  match n with
  | O => w
  | S n' =>
      match one_loss train val w with
      | (w1, Ok _) => world_after train val n' w1
      | (w1, Raise _) => w1
      end
  end.

(** The minimum of a non-empty list. *)
Definition minimum (xs : list R) : option R :=
  match xs with
  | [] => None
  | x :: xs' => Some (fold_left Rmin xs' x)
  end.

(** The parameter groups once the optional [start_lr] is written. *)
Definition groups_at_start (start_lr : option lr_value) (groups : list param_group)
  : list param_group :=
  match start_lr with
  | Some v =>
      if truthy v then
        assign_lrs groups
          (match v with
           | Scalar x => repeat x (List.length groups)
           | PerGroup xs => xs
           end)
      else groups
  | None => groups
  end.

(** Whether [_set_learning_rate], if it is called, finds as many rates as
    there are parameter groups. *)
Definition fits (start_lr : option lr_value) (groups : list param_group) : bool :=
  match start_lr with
  | Some v =>
      if truthy v then
        (List.length (match v with
                      | Scalar x => repeat x (List.length groups)
                      | PerGroup xs => xs
                      end) =? List.length groups)%nat
      else true
  | None => true
  end.

(** The state once the results of the previous run are cleared. *)
Definition reset_results (st : state) : state :=
  set_best_loss (set_history_loss (set_history_lr st []) []) None.

(** The class of schedule a [step_mode] selects. *)
Definition policy_of_mode (step_mode : string) : option policy :=
  if (lower step_mode =? "exp")%string then Some ExponentialLR_class
  else if (lower step_mode =? "linear")%string then Some LinearLR_class
  else None.

(** A schedule of the run at iteration index [i]. *)
Definition schedule_at (c : policy) (e : R) (N : Z) (bases : list R) (i : Z) : scheduler :=
  mk_scheduler c e N bases (epoch_of_iteration i).

(** The loss the code records at iteration [it] for the raw loss [raw],
    when [prev] is the list of losses recorded so far. *)
Definition recorded_loss (smooth_f : R) (it : Z) (raw : R) (prev : list R) : R :=
  if (it =? 0)%Z then raw
  else if float_gt smooth_f 0 then smooth_f * raw + (1 - smooth_f) * last prev 0
  else raw.

Definition updated_best (it : Z) (loss : R) (best : option R) : R :=
  if (it =? 0)%Z then loss
  else match best with
       | Some b => if float_lt loss b then loss else b
       | None => loss
       end.

(** The losses recorded for a sequence of raw losses, one iteration
    after the other. *)
Definition recorded (smooth_f : R) (raws : list R) : list R :=
  fold_left
    (fun acc raw =>
       acc ++ [recorded_loss smooth_f (Z.of_nat (List.length acc)) raw acc])
    raws [].

(** The recorded loss of index [j] exceeds [diverge_th] times the best
    (least) of the losses recorded up to and including it. *)
Definition diverges (diverge_th : R) (losses : list R) (j : nat) : bool :=
  match minimum (firstn (S j) losses) with
  | Some best => float_gt (nth j losses 0) (diverge_th * best)
  | None => false
  end.

(** The invariant of the loop on the losses, before iteration [k] of a
    sweep that started in the world [w0]. *)
Definition losses_invariant (train : Step) (val : option Step) (w0 : W)
    (smooth_f diverge_th : R) (k : nat) (st : state) : Prop :=
  train_step st = train /\
  val_step st = val /\
  world st = world_after train val k w0 /\
  List.length (raw_losses train val k w0) = k /\
  history_loss st = recorded smooth_f (raw_losses train val k w0) /\
  best_loss st = minimum (history_loss st) /\
  (forall j, (j < k)%nat -> diverges diverge_th (history_loss st) j = false).

(** What holds of the losses however a sweep of at most [T] iterations
    ends; [K] is the number of iterations that recorded a loss. *)
Definition losses_outcome (train : Step) (val : option Step) (w0 : W)
    (smooth_f diverge_th : R) (T : nat) (out : state * result unit) : Prop :=
  exists K,
    (K <= T)%nat /\
    List.length (raw_losses train val K w0) = K /\
    history_loss (fst out) = recorded smooth_f (raw_losses train val K w0) /\
    best_loss (fst out) = minimum (history_loss (fst out)) /\
    (forall j, (S j < K)%nat -> diverges diverge_th (history_loss (fst out)) j = false) /\
    (snd out = Ok tt ->
     world (fst out) = world_after train val K w0 /\
     ((K = T /\ forall j, (j < K)%nat ->
                  diverges diverge_th (history_loss (fst out)) j = false) \/
      (exists i, K = S i /\ diverges diverge_th (history_loss (fst out)) i = true))).

(** The invariant of the loop on the learning rates, before iteration
    [k] of a sweep with the schedule [c], [e], [N] over the base rates
    [bases]; [marks] are the ["initial_lr"] entries of the groups. *)
Definition lr_invariant (c : policy) (e : R) (N : Z) (bases : list R)
    (marks : list (option R)) (k : nat) (sched : scheduler) (st : state) : Prop :=
  sched = schedule_at c e N bases (Z.of_nat k) /\
  List.length (history_lr st) = k /\
  List.length (history_loss st) = k /\
  (forall i, (i < k)%nat ->
     exists rest, get_lr (schedule_at c e N bases (Z.of_nat i)) =
                  Ok (nth i (history_lr st) 0 :: rest)) /\
  map initial_lr (optimizer st) = marks /\
  List.length (optimizer st) = List.length bases /\
  ((1 <= k)%nat ->
   get_lr (schedule_at c e N bases (Z.of_nat k)) = Ok (map lr (optimizer st))).

Definition lr_outcome (c : policy) (e : R) (N : Z) (bases : list R)
    (marks : list (option R)) (out : state * result unit) : Prop :=
  (forall i, (i < List.length (history_lr (fst out)))%nat ->
     exists rest, get_lr (schedule_at c e N bases (Z.of_nat i)) =
                  Ok (nth i (history_lr (fst out)) 0 :: rest)) /\
  map initial_lr (optimizer (fst out)) = marks /\
  (snd out = Ok tt ->
   List.length (history_lr (fst out)) = List.length (history_loss (fst out)) /\
   ((1 <= List.length (history_lr (fst out)))%nat ->
    get_lr (schedule_at c e N bases (Z.of_nat (List.length (history_lr (fst out))))) =
    Ok (map lr (optimizer (fst out))))).

(** What an iteration that raises leaves behind: nothing is recorded
    as a loss, and at most the learning rate of that iteration is
    appended. *)
Definition aborted (lr_schedule : scheduler) (st st' : state) : Prop :=
  train_step st' = train_step st /\
  val_step st' = val_step st /\
  history_loss st' = history_loss st /\
  best_loss st' = best_loss st /\
  map initial_lr (optimizer st') = map initial_lr (optimizer st) /\
  (history_lr st' = history_lr st \/
   exists lr0 rest,
     get_lr lr_schedule = Ok (lr0 :: rest) /\
     history_lr st' = history_lr st ++ [lr0]).

(** What an iteration that returns has done. *)
Definition completed (smooth_f diverge_th : R) (it : Z) (lr_schedule : scheduler)
    (st st' : state) (out : scheduler * bool) : Prop :=
  exists w' raw lr0 rest lrs',
    one_loss (train_step st) (val_step st) (world st) = (w', Ok raw) /\
    get_lr lr_schedule = Ok (lr0 :: rest) /\
    get_lr (with_last_epoch lr_schedule (last_epoch lr_schedule + 1)) = Ok lrs' /\
    let loss := recorded_loss smooth_f it raw (history_loss st) in
    let best := updated_best it loss (best_loss st) in
    st' = mk_state (train_step st) (val_step st)
                   (assign_lrs (optimizer st) lrs')
                   (history_lr st ++ [lr0])
                   (history_loss st ++ [loss])
                   (Some best) w' /\
    out = (with_last_epoch lr_schedule (last_epoch lr_schedule + 1),
           float_gt loss (diverge_th * best)).

(** * Properties *)

(** ** Schedules *)

Lemma comprehension_ok {A B} (f : A -> B) (xs : list A) :
  comprehension (fun x => Ok (f x)) xs = Ok (map f xs).
Proof.
  induction xs as [|x xs IH]; simpl; [reflexivity|].
  rewrite IH. reflexivity.
Qed.

Lemma comprehension_ext_in {A B} (f g : A -> result B) (xs : list A) :
  (forall x, In x xs -> f x = g x) -> comprehension f xs = comprehension g xs.
Proof.
  induction xs as [|x xs IH]; simpl; intros H; [reflexivity|].
  rewrite (H x) by (left; reflexivity).
  rewrite IH by (intros y Hy; apply H; right; exact Hy).
  reflexivity.
Qed.

Lemma truediv_ok (a b : R) : b <> 0 -> truediv a b = Ok (a / b).
Proof.
  intros Hb. unfold truediv. destruct (Req_dec_T b 0); [contradiction|reflexivity].
Qed.

Lemma float_pow_pos (x y : R) : 0 < x -> float_pow x y = Ok (Rpower x y).
Proof.
  intros Hx. unfold float_pow. destruct (Rlt_dec 0 x); [reflexivity|contradiction].
Qed.

Lemma float_checks (f : R) :
  float_lt f 0 || float_ge f 1 = true <-> (f < 0 \/ 1 <= f).
Proof.
  unfold float_lt, float_ge.
  destruct (Rlt_dec f 0), (Rle_dec 1 f); simpl; split; intros H;
    try reflexivity; try discriminate; try tauto; lra.
Qed.

Lemma ratio_at_iteration (c : policy) (e : R) (N : Z) (bases : list R) (i : Z) :
  (1 < N)%Z ->
  ratio (mk_scheduler c e N bases (epoch_of_iteration i)) = Ok (IZR i / IZR (N - 1)).
Proof.
  intros HN.
  assert (Hd : IZR (N - 1) <> 0) by (apply not_0_IZR; lia).
  unfold ratio, epoch_of_iteration; simpl. destruct legacy; simpl.
  - replace (i - 1 + 1)%Z with i by lia. apply truediv_ok, Hd.
  - apply truediv_ok, Hd.
Qed.

(** The closed form of the linear schedule at iteration index [i]. *)
Lemma LinearLR_at (e : R) (N : Z) (bases : list R) (i : Z) :
  (1 < N)%Z ->
  get_lr (mk_scheduler LinearLR_class e N bases (epoch_of_iteration i)) =
  Ok (map (fun b => b + IZR i / IZR (N - 1) * (e - b)) bases).
Proof.
  intros HN. unfold get_lr, LinearLR_get_lr; simpl.
  rewrite ratio_at_iteration by exact HN. simpl.
  apply comprehension_ok.
Qed.

(** The closed form of the exponential schedule on positive rates. *)
Lemma ExponentialLR_at (e : R) (N : Z) (bases : list R) (i : Z) :
  (1 < N)%Z -> 0 < e -> Forall (fun b => 0 < b) bases ->
  get_lr (mk_scheduler ExponentialLR_class e N bases (epoch_of_iteration i)) =
  Ok (map (fun b => b * Rpower (e / b) (IZR i / IZR (N - 1))) bases).
Proof.
  intros HN He Hb. unfold get_lr, ExponentialLR_get_lr; simpl.
  rewrite ratio_at_iteration by exact HN. simpl.
  rewrite <- comprehension_ok. apply comprehension_ext_in.
  intros b Hin. rewrite Forall_forall in Hb. specialize (Hb b Hin).
  rewrite truediv_ok by lra. simpl.
  rewrite float_pow_pos by (apply Rdiv_lt_0_compat; assumption).
  reflexivity.
Qed.

(** ** One iteration of the sweep *)

Lemma last_item_last (xs : list R) : xs <> [] -> last_item xs = Ok (last xs 0).
Proof.
  induction xs as [|x xs IH]; intros Hne; [contradiction|].
  destruct xs as [|y ys]; [reflexivity|].
  change (last_item (y :: ys) = Ok (last (y :: ys) 0)).
  apply IH. discriminate.
Qed.

Lemma last_item_ok (xs : list R) (a : R) : last_item xs = Ok a -> a = last xs 0.
Proof.
  intros H. destruct xs as [|x xs]; [discriminate|].
  rewrite last_item_last in H by discriminate. congruence.
Qed.

Lemma iteration_body_unfold (smooth_f diverge_th : R) (it : Z)
    (lr_schedule : scheduler) (st : state) :
  iteration_body smooth_f diverge_th it lr_schedule st =
  match one_loss (train_step st) (val_step st) (world st) with
  | (w', Ok raw) =>
      record_iteration smooth_f diverge_th it lr_schedule raw (set_world st w')
  | (w', Raise e) => (set_world st w', Raise e)
  end.
Proof.
  destruct st as [train val opt hlr hloss best w].
  unfold iteration_body, bind, gets, call_step, one_loss, ret; cbn.
  destruct (step train w) as [w1 [loss|e]]; cbn; [|reflexivity].
  destruct val as [v|]; cbn; [|reflexivity].
  unfold set_world; cbn.
  destruct (step v w1) as [w2 [loss2|e2]]; reflexivity.
Qed.

Lemma assign_lrs_initial_lr (groups : list param_group) (lrs : list R) :
  map initial_lr (assign_lrs groups lrs) = map initial_lr groups.
Proof.
  revert lrs. induction groups as [|g gs IH]; intros [|v vs]; simpl; try reflexivity.
  rewrite IH. reflexivity.
Qed.

Lemma assign_lrs_lr (groups : list param_group) (lrs : list R) :
  List.length lrs = List.length groups ->
  map lr (assign_lrs groups lrs) = lrs.
Proof.
  revert lrs. induction groups as [|g gs IH]; intros [|v vs]; simpl;
    try reflexivity; try discriminate.
  intros H. injection H as H. rewrite IH by exact H. reflexivity.
Qed.

Lemma assign_lrs_length (groups : list param_group) (lrs : list R) :
  List.length (assign_lrs groups lrs) = List.length groups.
Proof.
  revert lrs. induction groups as [|g gs IH]; intros [|v vs]; simpl; try reflexivity.
  rewrite IH. reflexivity.
Qed.

Ltac abort_case :=
  unfold set_optimizer, set_history_lr; cbn;
  repeat split; try reflexivity; try apply assign_lrs_initial_lr;
  solve [ left; reflexivity
        | right; do 2 eexists; split;
          [first [eassumption|reflexivity]|reflexivity] ].

Lemma record_iteration_cases (smooth_f diverge_th : R) (it : Z)
    (lr_schedule : scheduler) (raw : R) (st : state) :
  match record_iteration smooth_f diverge_th it lr_schedule raw st with
  | (st', Raise _) => aborted lr_schedule st st'
  | (st', Ok out) =>
      exists lr0 rest lrs',
        get_lr lr_schedule = Ok (lr0 :: rest) /\
        get_lr (with_last_epoch lr_schedule (last_epoch lr_schedule + 1)) = Ok lrs' /\
        let loss := recorded_loss smooth_f it raw (history_loss st) in
        let best := updated_best it loss (best_loss st) in
        st' = mk_state (train_step st) (val_step st)
                       (assign_lrs (optimizer st) lrs')
                       (history_lr st ++ [lr0])
                       (history_loss st ++ [loss])
                       (Some best) (world st) /\
        out = (with_last_epoch lr_schedule (last_epoch lr_schedule + 1),
               float_gt loss (diverge_th * best))
  end.
Proof.
  destruct st as [train val opt hlr hloss best w].
  unfold record_iteration, aborted, bind, gets, lift,
    modify, ret, raise, LRScheduler_step, assign_from_get_lr, track_loss,
    bind, gets, lift, modify, ret, raise.
  cbn.
  destruct (get_lr lr_schedule) as [[|lr0 rest]|e] eqn:Hlr; cbn;
    try solve [abort_case].
  destruct (get_lr (with_last_epoch lr_schedule (last_epoch lr_schedule + 1)))
    as [lrs'|e] eqn:Hlr'; cbn.
  2:{ abort_case. }
  unfold recorded_loss, updated_best.
  destruct (it =? 0)%Z eqn:Hit; cbn.
  - destruct (float_gt raw (diverge_th * raw)); cbn;
      exists lr0, rest, lrs'; repeat split; reflexivity.
  - destruct (float_gt smooth_f 0); cbn.
    + destruct (last_item hloss) as [prev|e] eqn:Hlast; cbn.
      2:{ abort_case. }
      apply last_item_ok in Hlast. subst prev.
      destruct best as [b|]; cbn.
      2:{ abort_case. }
      destruct (float_lt (smooth_f * raw + (1 - smooth_f) * last hloss 0) b); cbn;
        match goal with
        | |- context [float_gt ?a ?b] => destruct (float_gt a b); cbn
        end;
        exists lr0, rest, lrs'; repeat split; reflexivity.
    + destruct best as [b|]; cbn.
      2:{ abort_case. }
      destruct (float_lt raw b); cbn;
        match goal with
        | |- context [float_gt ?a ?b] => destruct (float_gt a b); cbn
        end;
        exists lr0, rest, lrs'; repeat split; reflexivity.
Qed.

Lemma iteration_body_cases (smooth_f diverge_th : R) (it : Z)
    (lr_schedule : scheduler) (st : state) :
  match iteration_body smooth_f diverge_th it lr_schedule st with
  | (st', Raise _) => aborted lr_schedule st st'
  | (st', Ok out) => completed smooth_f diverge_th it lr_schedule st st' out
  end.
Proof.
  rewrite iteration_body_unfold. unfold completed.
  destruct (one_loss (train_step st) (val_step st) (world st)) as [w' [raw|e]].
  - pose proof (record_iteration_cases smooth_f diverge_th it lr_schedule raw
                  (set_world st w')) as H.
    destruct (record_iteration smooth_f diverge_th it lr_schedule raw
                (set_world st w')) as [st' [out|e]].
    + destruct H as (lr0 & rest & lrs' & H1 & H2 & H3 & H4).
      exists w', raw, lr0, rest, lrs'. repeat split; assumption.
    + exact H.
  - unfold aborted; destruct st; cbn. tauto.
Qed.




(** ** The loop *)

(** An invariant rule for the [for] loop over [T] iterations: [P k] holds
    before iteration [k], [Q] holds of every way the loop ends. *)
Lemma for_range_rule (smooth_f diverge_th : R) (T : nat)
    (P : nat -> scheduler -> state -> Prop)
    (Q : state * result unit -> Prop) :
  (forall sched st, P T sched st -> Q (st, Ok tt)) ->
  (forall k sched st, (k < T)%nat -> P k sched st ->
     match iteration_body smooth_f diverge_th (Z.of_nat k) sched st with
     | (st', Raise e) => Q (st', Raise e)
     | (st', Ok (sched', true)) => Q (st', Ok tt)
     | (st', Ok (sched', false)) => P (S k) sched' st'
     end) ->
  forall n k sched st, (k + n = T)%nat -> P k sched st ->
    Q (for_range smooth_f diverge_th n (Z.of_nat k) sched st).
Proof.
  intros Hexit Hbody. induction n as [|n IH]; intros k sched st Hk HP.
  - simpl. unfold ret. apply (Hexit sched). replace T with k by lia. exact HP.
  - simpl. unfold bind.
    specialize (Hbody k sched st ltac:(lia) HP).
    destruct (iteration_body smooth_f diverge_th (Z.of_nat k) sched st)
      as [st' [[sched' brk]|e]]; simpl.
    + destruct brk; [exact Hbody|].
      replace (Z.of_nat k + 1)%Z with (Z.of_nat (S k)) by lia.
      apply IH; [lia|exact Hbody].
    + exact Hbody.
Qed.

(** *** Lists of recorded losses *)

Lemma recorded_snoc (f : R) (raws : list R) (x : R) :
  recorded f (raws ++ [x]) =
  recorded f raws ++
    [recorded_loss f (Z.of_nat (List.length (recorded f raws))) x (recorded f raws)].
Proof. unfold recorded. rewrite fold_left_app. reflexivity. Qed.

Lemma recorded_length (f : R) (raws : list R) :
  List.length (recorded f raws) = List.length raws.
Proof.
  induction raws as [|x raws IH] using rev_ind; [reflexivity|].
  rewrite recorded_snoc, !length_app, IH. reflexivity.
Qed.

Lemma Rmin_float_lt (b x : R) : Rmin b x = if float_lt x b then x else b.
Proof.
  unfold Rmin, float_lt. destruct (Rle_dec b x), (Rlt_dec x b); lra.
Qed.

Lemma minimum_snoc (xs : list R) (x : R) :
  minimum (xs ++ [x]) =
  Some (updated_best (Z.of_nat (List.length xs)) x (minimum xs)).
Proof.
  destruct xs as [|y ys]; [reflexivity|].
  unfold updated_best.
  replace (Z.of_nat (List.length (y :: ys)) =? 0)%Z with false
    by (symmetry; apply Z.eqb_neq; simpl List.length; lia).
  simpl. rewrite fold_left_app. simpl. rewrite Rmin_float_lt. reflexivity.
Qed.

Lemma raw_losses_snoc (train : Step) (val : option Step) (k : nat) (w w' : W) (raw : R) :
  List.length (raw_losses train val k w) = k ->
  one_loss train val (world_after train val k w) = (w', Ok raw) ->
  raw_losses train val (S k) w = raw_losses train val k w ++ [raw] /\
  world_after train val (S k) w = w'.
Proof.
  revert w. induction k as [|k IH]; intros w Hlen Hone.
  - simpl in *. rewrite Hone. split; reflexivity.
  - assert (Hr : forall n, raw_losses train val (S n) w =
                        match one_loss train val w with
                        | (w1, Ok loss) => loss :: raw_losses train val n w1
                        | (_, Raise _) => []
                        end) by reflexivity.
    assert (Hw : forall n, world_after train val (S n) w =
                        match one_loss train val w with
                        | (w1, Ok _) => world_after train val n w1
                        | (w1, Raise _) => w1
                        end) by reflexivity.
    rewrite Hr in Hlen. rewrite Hw in Hone. rewrite (Hr (S k)), (Hw (S k)), (Hr k).
    destruct (one_loss train val w) as [w1 [l|e]]; [|discriminate].
    simpl in Hlen. injection Hlen as Hlen.
    destruct (IH w1 Hlen Hone) as [H1 H2].
    rewrite H1, H2. split; reflexivity.
Qed.

Lemma diverges_app_old (th : R) (losses : list R) (x : R) (j : nat) :
  (j < List.length losses)%nat ->
  diverges th (losses ++ [x]) j = diverges th losses j.
Proof.
  intros Hj. unfold diverges.
  rewrite firstn_app.
  replace (S j - List.length losses)%nat with O by lia.
  simpl firstn at 2. rewrite app_nil_r.
  rewrite app_nth1 by exact Hj. reflexivity.
Qed.

Lemma diverges_app_new (th : R) (losses : list R) (x : R) :
  diverges th (losses ++ [x]) (List.length losses) =
  float_gt x (th * updated_best (Z.of_nat (List.length losses)) x (minimum losses)).
Proof.
  unfold diverges.
  rewrite firstn_all2 by (rewrite length_app; simpl; lia).
  rewrite minimum_snoc.
  rewrite app_nth2 by lia. rewrite Nat.sub_diag. reflexivity.
Qed.

(** The losses recorded by the loop, its best loss and its stopping point
    follow the raw losses of the executors. *)
Lemma for_range_losses (train : Step) (val : option Step) (w0 : W)
    (smooth_f diverge_th : R) (T n k : nat) (sched : scheduler) (st : state) :
  (k + n = T)%nat ->
  losses_invariant train val w0 smooth_f diverge_th k st ->
  losses_outcome train val w0 smooth_f diverge_th T
    (for_range smooth_f diverge_th n (Z.of_nat k) sched st).
Proof.
  intros Hk HP.
  apply (for_range_rule smooth_f diverge_th T
           (fun k _ st => losses_invariant train val w0 smooth_f diverge_th k st)
           (losses_outcome train val w0 smooth_f diverge_th T))
    with (k := k); try assumption.
  - clear. intros _ st (Ht & Hv & Hw & Hlen & Hh & Hb & Hd).
    exists T. simpl. repeat split; auto.
    intros j Hj. apply Hd. lia.
  - clear. intros k sched st Hlt (Ht & Hv & Hw & Hlen & Hh & Hb & Hd).
    pose proof (iteration_body_cases smooth_f diverge_th (Z.of_nat k) sched st) as Hc.
    destruct (iteration_body smooth_f diverge_th (Z.of_nat k) sched st)
      as [st' [[sched' brk]|e]].
    + destruct Hc as (w' & raw & lr0 & rest & lrs' & Hone & _ & _ & Hst & Hout).
      rewrite Ht, Hv, Hw in Hone.
      destruct (raw_losses_snoc train val k w0 w' raw Hlen Hone) as [Hraws Hworld].
      assert (HlenH : List.length (history_loss st) = k)
        by (rewrite Hh, recorded_length; exact Hlen).
      set (loss := recorded_loss smooth_f (Z.of_nat k) raw (history_loss st)) in *.
      assert (Hh' : history_loss st' = recorded smooth_f (raw_losses train val (S k) w0)).
      { rewrite Hraws, recorded_snoc, <- Hh, HlenH. subst st'. reflexivity. }
      assert (Hb' : best_loss st' = minimum (history_loss st')).
      { subst st'. simpl. rewrite minimum_snoc, HlenH, Hb. reflexivity. }
      assert (Hlen' : List.length (raw_losses train val (S k) w0) = S k).
      { rewrite Hraws, length_app, Hlen. simpl. lia. }
      assert (Hold : forall j, (j < k)%nat ->
                diverges diverge_th (history_loss st') j = false).
      { intros j Hj. subst st'. simpl.
        rewrite diverges_app_old by lia. apply Hd, Hj. }
      assert (Hnew : diverges diverge_th (history_loss st') k = brk).
      { subst st'. simpl. rewrite <- HlenH at 1. rewrite diverges_app_new.
        rewrite HlenH, <- Hb. injection Hout as _ <-. reflexivity. }
      destruct brk.
      * exists (S k). simpl. repeat split; auto; try lia.
        -- intros j Hj. apply Hold. lia.
        -- subst st'. simpl. symmetry. exact Hworld.
        -- right. exists k. split; [reflexivity|exact Hnew].
      * subst st'. simpl in *. repeat split; auto.
        intros j Hj. destruct (Nat.eq_dec j k) as [->|Hne]; [exact Hnew|].
        apply Hold. lia.
    + destruct Hc as (Ht' & Hv' & Hh' & Hb' & _ & _).
      exists k. simpl. repeat split; try lia; try congruence; try discriminate.
      intros j Hj. rewrite Hh'. apply Hd. lia.
Qed.

Lemma comprehension_length {A B} (f : A -> result B) (xs : list A) (ys : list B) :
  comprehension f xs = Ok ys -> List.length ys = List.length xs.
Proof.
  revert ys. induction xs as [|x xs IH]; simpl; intros ys H.
  - injection H as <-. reflexivity.
  - destruct (f x) as [y|err]; simpl in H; [|discriminate].
    destruct (comprehension f xs) as [ys'|err]; simpl in H; [|discriminate].
    injection H as <-. simpl. rewrite (IH ys' eq_refl). reflexivity.
Qed.

Lemma get_lr_length (s : scheduler) (lrs : list R) :
  get_lr s = Ok lrs -> List.length lrs = List.length (base_lrs s).
Proof.
  unfold get_lr, LinearLR_get_lr, ExponentialLR_get_lr.
  destruct (cls s), (ratio s) as [r|err]; simpl; intros H;
    try discriminate; eapply comprehension_length; exact H.
Qed.

Lemma schedule_at_next (c : policy) (e : R) (N : Z) (bases : list R) (k : nat) :
  with_last_epoch (schedule_at c e N bases (Z.of_nat k))
    (last_epoch (schedule_at c e N bases (Z.of_nat k)) + 1) =
  schedule_at c e N bases (Z.of_nat (S k)).
Proof.
  rewrite Nat2Z.inj_succ.
  unfold schedule_at, with_last_epoch, epoch_of_iteration.
  cbn [cls end_lr num_iter base_lrs last_epoch].
  f_equal. destruct legacy; lia.
Qed.

(** The learning rates recorded by the loop are the first group's
    scheduled rates, and every group receives its scheduled rate. *)
Lemma for_range_lrs (c : policy) (e : R) (N : Z) (bases : list R)
    (marks : list (option R)) (smooth_f diverge_th : R) (n k : nat)
    (sched : scheduler) (st : state) :
  lr_invariant c e N bases marks k sched st ->
  lr_outcome c e N bases marks
    (for_range smooth_f diverge_th n (Z.of_nat k) sched st).
Proof.
  intros HP.
  apply (for_range_rule smooth_f diverge_th (k + n)
           (lr_invariant c e N bases marks)
           (lr_outcome c e N bases marks))
    with (k := k); try assumption; try reflexivity.
  - clear HP. intros sched' st' (Hs & Hl & Hll & Hh & Hm & Hlen & Ho).
    unfold lr_outcome; simpl. rewrite Hl. repeat split; auto.
  - clear HP sched st. generalize (k + n)%nat as T. clear k.
    intros T k sched st _ (Hs & Hl & Hll & Hh & Hm & Hlen & Ho).
    pose proof (iteration_body_cases smooth_f diverge_th (Z.of_nat k) sched st) as Hc.
    destruct (iteration_body smooth_f diverge_th (Z.of_nat k) sched st)
      as [st' [[sched' brk]|err]].
    + destruct Hc as (w' & raw & lr0 & rest & lrs' & _ & Hlr & Hlr' & Hst & Hout).
      injection Hout as Hsched' _.
      rewrite Hs in Hlr, Hlr', Hsched'. rewrite schedule_at_next in Hlr', Hsched'.
      assert (Hlen' : List.length lrs' = List.length (optimizer st)).
      { rewrite (get_lr_length _ _ Hlr'), Hlen. reflexivity. }
      assert (Hhist : forall i, (i < S k)%nat ->
                exists rest0, get_lr (schedule_at c e N bases (Z.of_nat i)) =
                              Ok (nth i (history_lr st ++ [lr0]) 0 :: rest0)).
      { intros i Hi. destruct (Nat.eq_dec i k) as [->|Hne].
        - exists rest. rewrite app_nth2 by lia.
          rewrite Hl, Nat.sub_diag. exact Hlr.
        - rewrite app_nth1 by lia. apply Hh. lia. }
      assert (HP' : lr_invariant c e N bases marks (S k) sched' st').
      { subst st'. unfold lr_invariant; simpl.
        rewrite !length_app, Hl, Hll, assign_lrs_initial_lr, assign_lrs_length,
          assign_lrs_lr by exact Hlen'.
        simpl. repeat split; auto; lia. }
      destruct brk; [|exact HP'].
      destruct HP' as (_ & Hl' & Hll' & Hh' & Hm' & _ & Ho').
      unfold lr_outcome; simpl. rewrite Hl'. repeat split; auto.
    + destruct Hc as (_ & _ & Hloss & _ & Hmark & Hlrs).
      unfold lr_outcome; simpl. repeat split; try discriminate; try congruence.
      intros i Hi. destruct Hlrs as [Heq|(lr0 & rest & Hlr & Heq)]; rewrite Heq in *.
      * apply Hh. lia.
      * rewrite length_app in Hi. simpl in Hi.
        destruct (Nat.eq_dec i k) as [->|Hne].
        -- exists rest. rewrite app_nth2 by lia.
           rewrite Hl, Nat.sub_diag. rewrite <- Hs. exact Hlr.
        -- rewrite app_nth1 by lia. apply Hh. lia.
Qed.

(** *** Iterations that return *)

Lemma record_iteration_returns (smooth_f diverge_th : R) (it : Z)
    (sched : scheduler) (raw : R) (st : state) (lr0 : R) (rest lrs' : list R) :
  get_lr sched = Ok (lr0 :: rest) ->
  get_lr (with_last_epoch sched (last_epoch sched + 1)) = Ok lrs' ->
  it = 0%Z \/ (history_loss st <> [] /\ best_loss st <> None) ->
  exists st' out, record_iteration smooth_f diverge_th it sched raw st = (st', Ok out).
Proof.
  intros Hlr Hlr' Hpre.
  destruct st as [train val opt hlr hloss best w].
  unfold record_iteration, bind, gets, lift,
    modify, ret, raise, LRScheduler_step, assign_from_get_lr, track_loss,
    bind, gets, lift, modify, ret, raise.
  rewrite Hlr. cbn. rewrite Hlr'. cbn.
  destruct (it =? 0)%Z eqn:Hit; cbn.
  - destruct (float_gt raw (diverge_th * raw)); eauto.
  - apply Z.eqb_neq in Hit. destruct Hpre as [Hz|[Hh Hb]]; [contradiction|].
    cbn in Hh, Hb. destruct best as [b|]; [|contradiction].
    destruct (float_gt smooth_f 0); cbn;
      rewrite ?(last_item_last hloss Hh); cbn;
      match goal with
      | |- context [float_lt ?a ?b] => destruct (float_lt a b); cbn
      end;
      match goal with
      | |- context [float_gt ?a ?b] => destruct (float_gt a b); cbn
      end; eauto.
Qed.

Lemma raw_losses_prefix (train : Step) (val : option Step) (T k : nat) (w : W) :
  List.length (raw_losses train val T w) = T -> (k < T)%nat ->
  List.length (raw_losses train val k w) = k /\
  exists w' raw, one_loss train val (world_after train val k w) = (w', Ok raw).
Proof.
  revert k w. induction T as [|T IH]; intros k w Hlen Hk; [lia|].
  simpl in Hlen.
  destruct (one_loss train val w) as [w1 [l|err]] eqn:Hone; [|discriminate].
  simpl in Hlen. injection Hlen as Hlen.
  destruct k as [|k].
  - simpl. split; [reflexivity|]. rewrite Hone. eauto.
  - simpl. rewrite Hone. simpl.
    destruct (IH k w1 Hlen ltac:(lia)) as [H1 H2].
    split; [congruence|exact H2].
Qed.

(** A loop whose executors return [T] losses and whose schedule yields a
    first rate at every iteration returns. *)
Lemma for_range_returns (c : policy) (e : R) (N : Z) (bases : list R)
    (train : Step) (val : option Step) (w0 : W) (smooth_f diverge_th : R)
    (T : nat) (st : state) :
  (forall i, (i <= T)%nat ->
     exists lr0 rest, get_lr (schedule_at c e N bases (Z.of_nat i)) = Ok (lr0 :: rest)) ->
  List.length (raw_losses train val T w0) = T ->
  train_step st = train -> val_step st = val -> world st = w0 ->
  snd (for_range smooth_f diverge_th T 0 (schedule_at c e N bases 0) st) = Ok tt.
Proof.
  intros Hsched Hraws Ht Hv Hw.
  apply (for_range_rule smooth_f diverge_th T
           (fun k sched st =>
              sched = schedule_at c e N bases (Z.of_nat k) /\
              train_step st = train /\ val_step st = val /\
              world st = world_after train val k w0 /\
              (k = O \/ (history_loss st <> [] /\ best_loss st <> None)))
           (fun out => snd out = Ok tt))
    with (n := T) (k := O); try reflexivity.
  - intros k sched st1 Hk (Hs & Ht1 & Hv1 & Hw1 & Hpre).
    rewrite iteration_body_unfold, Ht1, Hv1, Hw1.
    destruct (raw_losses_prefix train val T k w0 Hraws Hk)
      as [Hlenk (w' & raw & Hone)].
    destruct (raw_losses_snoc train val k w0 w' raw Hlenk Hone) as [_ Hworld].
    rewrite Hone.
    destruct (Hsched k ltac:(lia)) as (lr0 & rest & Hlr).
    destruct (Hsched (S k) ltac:(lia)) as (lr1 & rest1 & Hlr').
    rewrite <- schedule_at_next, <- Hs in Hlr'. rewrite <- Hs in Hlr.
    assert (Hpre' : Z.of_nat k = 0%Z \/
                    (history_loss (set_world st1 w') <> [] /\
                     best_loss (set_world st1 w') <> None)).
    { destruct Hpre as [->|H]; [left; reflexivity|right; exact H]. }
    destruct (record_iteration_returns smooth_f diverge_th (Z.of_nat k) sched raw
                (set_world st1 w') lr0 rest (lr1 :: rest1) Hlr Hlr' Hpre')
      as (st' & out & Hrun).
    pose proof (record_iteration_cases smooth_f diverge_th (Z.of_nat k) sched raw
                  (set_world st1 w')) as Hc.
    rewrite Hrun in *.
    destruct Hc as (lr0' & rest' & lrs' & _ & _ & Hst & Hout).
    destruct out as [sched' brk]. injection Hout as -> _.
    destruct brk; [reflexivity|].
    subst st'. simpl. repeat split; auto.
    + rewrite Hs. apply schedule_at_next.
    + right. split; [|discriminate].
      intros Hnil. apply app_eq_nil in Hnil. destruct Hnil as [_ Hnil]. discriminate.
  - repeat split; auto.
Qed.

(** ** The steps before the loop *)

Lemma check_groups_ok (groups : list param_group) :
  check_groups groups = Ok tt ->
  Forall (fun g => initial_lr g = None) groups.
Proof.
  induction groups as [|g gs IH]; simpl; intros H; constructor.
  - unfold has_initial_lr in H. destruct (initial_lr g); [discriminate|reflexivity].
  - apply IH. destruct (has_initial_lr g); [discriminate|exact H].
Qed.

Lemma check_groups_result (groups : list param_group) :
  check_groups groups =
  if existsb has_initial_lr groups then
    Raise (RuntimeError "Optimizer already has a scheduler attached to it")
  else Ok tt.
Proof.
  induction groups as [|g gs IH]; simpl; [reflexivity|].
  destruct (has_initial_lr g); simpl; [reflexivity|exact IH].
Qed.

Lemma unmarked_assign_lrs (groups : list param_group) (lrs : list R) :
  Forall (fun g => initial_lr g = None) groups ->
  Forall (fun g => initial_lr g = None) (assign_lrs groups lrs).
Proof.
  intros H. revert lrs. induction H as [|g gs Hg Hgs IH]; intros [|v vs]; simpl;
    constructor; auto.
Qed.

Lemma base_lrs_of_unmarked (groups : list param_group) :
  Forall (fun g => initial_lr g = None) groups ->
  comprehension (fun g => match initial_lr g with
                          | Some v => Ok v
                          | None => Raise KeyError
                          end) (map setdefault_initial_lr groups) =
  Ok (map lr groups).
Proof.
  induction 1 as [|g gs Hg Hgs IH]; simpl; [reflexivity|].
  unfold setdefault_initial_lr at 1. rewrite Hg. simpl. rewrite IH. reflexivity.
Qed.

Lemma groups_at_start_unmarked (start_lr : option lr_value) (groups : list param_group) :
  Forall (fun g => initial_lr g = None) groups ->
  Forall (fun g => initial_lr g = None) (groups_at_start start_lr groups).
Proof.
  intros H. unfold groups_at_start.
  destruct start_lr as [v|]; [|exact H].
  destruct (truthy v); [|exact H].
  apply unmarked_assign_lrs, H.
Qed.

Lemma start_lr_stage (start_lr : option lr_value) (st : state) :
  (match start_lr with
   | Some v => if truthy v then _set_learning_rate v else ret tt
   | None => ret tt
   end) st =
  if negb (fits start_lr (optimizer st)) then
    (st, Raise (ValueError
       "Length of `new_lrs` is not equal to the number of parameter groups in the given optimizer"))
  else (set_optimizer st (groups_at_start start_lr (optimizer st)), Ok tt).
Proof.
  destruct st as [train val opt hlr hloss best w].
  unfold fits, groups_at_start, _set_learning_rate, bind, gets, modify, ret, raise.
  destruct start_lr as [v|]; cbn; [|reflexivity].
  destruct (truthy v); cbn; [|reflexivity].
  match goal with |- context [negb ?b] => destruct b end; reflexivity.
Qed.

Lemma schedule_init_stage (c : policy) (e : R) (N : Z) (st : state) :
  Forall (fun g => initial_lr g = None) (optimizer st) ->
  schedule_init c e N st =
  if (N <=? 1)%Z then
    (st, Raise (ValueError "`num_iter` must be larger than 1"))
  else
    let marked := map setdefault_initial_lr (optimizer st) in
    let bases := map lr (optimizer st) in
    match get_lr (mk_scheduler c e N bases 0) with
    | Raise err => (set_optimizer st marked, Raise err)
    | Ok lrs =>
        (set_optimizer st (assign_lrs marked lrs), Ok (schedule_at c e N bases 0))
    end.
Proof.
  intros Hun. destruct st as [train val opt hlr hloss best w]. cbn in Hun.
  unfold schedule_init, raise.
  destruct (N <=? 1)%Z; [reflexivity|].
  unfold LRScheduler_init, LRScheduler_step, assign_from_get_lr, schedule_at,
    epoch_of_iteration, with_last_epoch, bind, gets, modify, lift, ret; cbn.
  rewrite (base_lrs_of_unmarked opt Hun). cbn.
  destruct legacy; cbn;
    destruct (get_lr (mk_scheduler c e N (map lr opt) 0)) as [lrs|err];
    reflexivity.
Qed.

Lemma schedule_init_by_mode (e : R) (N : Z) (step_mode : string) (st : state) :
  (if (lower step_mode =? "exp")%string then ExponentialLR_init e N
   else if (lower step_mode =? "linear")%string then LinearLR_init e N
   else raise (ValueError
                 (String.append "expected one of (exp, linear), got " step_mode))) st =
  match policy_of_mode step_mode with
  | Some c => schedule_init c e N st
  | None =>
      (st, Raise (ValueError
                    (String.append "expected one of (exp, linear), got " step_mode)))
  end.
Proof.
  unfold policy_of_mode, ExponentialLR_init, LinearLR_init, raise.
  destruct (lower step_mode =? "exp")%string; [reflexivity|].
  destruct (lower step_mode =? "linear")%string; reflexivity.
Qed.

(** The steps before the loop, as one decision tree over the arguments. *)
Lemma range_test_setup_spec (start_lr : option lr_value) (e : R) (N : Z)
    (step_mode : string) (smooth_f : R) (st : state) :
  range_test_setup start_lr e N step_mode smooth_f st =
  let st1 := reset_results st in
  match check_groups (optimizer st) with
  | Raise err => (st1, Raise err)
  | Ok _ =>
      if negb (fits start_lr (optimizer st)) then
        (st1, Raise (ValueError
           "Length of `new_lrs` is not equal to the number of parameter groups in the given optimizer"))
      else
        let groups := groups_at_start start_lr (optimizer st) in
        let st2 := set_optimizer st1 groups in
        match policy_of_mode step_mode with
        | None =>
            (st2, Raise (ValueError
               (String.append "expected one of (exp, linear), got " step_mode)))
        | Some c =>
            if (N <=? 1)%Z then
              (st2, Raise (ValueError "`num_iter` must be larger than 1"))
            else
              let marked := map setdefault_initial_lr groups in
              let bases := map lr groups in
              match get_lr (mk_scheduler c e N bases 0) with
              | Raise err => (set_optimizer st1 marked, Raise err)
              | Ok lrs =>
                  let st4 := set_optimizer st1 (assign_lrs marked lrs) in
                  if float_lt smooth_f 0 || float_ge smooth_f 1 then
                    (st4, Raise (ValueError "smooth_f is outside the range [0, 1["))
                  else (st4, Ok (schedule_at c e N bases 0))
              end
        end
  end.
Proof.
  unfold range_test_setup.
  unfold bind at 1 2 3. unfold modify at 1 2. unfold _check_for_scheduler.
  unfold bind at 1. unfold gets, lift.
  change (set_best_loss (set_history_loss (set_history_lr st []) []) None)
    with (reset_results st).
  change (optimizer (reset_results st)) with (optimizer st).
  cbv zeta.
  destruct (check_groups (optimizer st)) as [[]|err] eqn:Hcheck; [|reflexivity].
  apply check_groups_ok in Hcheck.
  unfold bind at 1. rewrite start_lr_stage.
  change (optimizer (reset_results st)) with (optimizer st).
  destruct (negb (fits start_lr (optimizer st))); [reflexivity|].
  unfold bind at 1. rewrite schedule_init_by_mode.
  destruct (policy_of_mode step_mode) as [c|]; [|reflexivity].
  rewrite schedule_init_stage
    by (apply groups_at_start_unmarked, Hcheck).
  cbn [optimizer set_optimizer].
  destruct (N <=? 1)%Z; [reflexivity|].
  cbv zeta.
  destruct (get_lr _) as [lrs|err]; [|reflexivity].
  unfold bind, ret, raise.
  destruct (float_lt smooth_f 0 || float_ge smooth_f 1); reflexivity.
Qed.


(** ** A whole run *)

Lemma setdefault_marks (groups : list param_group) :
  Forall (fun g => initial_lr g = None) groups ->
  map initial_lr (map setdefault_initial_lr groups) =
  map (fun g => Some (lr g)) groups.
Proof.
  induction 1 as [|g gs Hg Hgs IH]; simpl; [reflexivity|].
  unfold setdefault_initial_lr at 1. rewrite Hg. simpl. rewrite IH. reflexivity.
Qed.

(** A run either fails before the loop, or enters the loop with empty
    results and leaves it as the two loop lemmas say. *)
Lemma range_test_cases (start_lr : option lr_value) (e : R) (N : Z)
    (step_mode : string) (smooth_f diverge_th : R) (st : state) :
  let out := range_test start_lr e N step_mode smooth_f diverge_th st in
  let groups := groups_at_start start_lr (optimizer st) in
  match range_test_setup start_lr e N step_mode smooth_f st with
  | (st1, Raise err) => out = (st1, Raise err)
  | (_, Ok _) =>
      exists c,
        policy_of_mode step_mode = Some c /\
        (1 < N)%Z /\
        losses_outcome (train_step st) (val_step st) (world st)
          smooth_f diverge_th (Z.to_nat N) out /\
        lr_outcome c e N (map lr groups) (map (fun g => Some (lr g)) groups) out
  end.
Proof.
  intros out groups. subst out. unfold range_test, bind.
  rewrite range_test_setup_spec. cbv zeta.
  destruct (check_groups (optimizer st)) as [[]|err] eqn:Hcheck; [|reflexivity].
  apply check_groups_ok in Hcheck.
  destruct (negb (fits start_lr (optimizer st))); [reflexivity|].
  fold groups.
  assert (Hun : Forall (fun g => initial_lr g = None) groups)
    by (apply groups_at_start_unmarked, Hcheck).
  destruct (policy_of_mode step_mode) as [c|]; [|reflexivity].
  destruct (N <=? 1)%Z eqn:HN; [reflexivity|].
  apply Z.leb_gt in HN.
  destruct (get_lr (mk_scheduler c e N (map lr groups) 0)) as [lrs|err] eqn:Hlrs;
    [|reflexivity].
  destruct (float_lt smooth_f 0 || float_ge smooth_f 1); [reflexivity|].
  exists c. split; [reflexivity|]. split; [exact HN|]. split.
  - apply (for_range_losses (train_step st) (val_step st) (world st)
             smooth_f diverge_th (Z.to_nat N) (Z.to_nat N) 0); [reflexivity|].
    destruct st; unfold losses_invariant; simpl. repeat split; auto.
    all: intros j Hj; lia.
  - apply (for_range_lrs c e N (map lr groups) (map (fun g => Some (lr g)) groups)
             smooth_f diverge_th (Z.to_nat N) 0).
    destruct st; unfold lr_invariant; simpl.
    rewrite assign_lrs_initial_lr, assign_lrs_length, !length_map.
    repeat split; auto; try lia; try (apply setdefault_marks, Hun).
Qed.

Lemma last_is_nth (xs : list R) :
  xs <> [] -> last xs 0 = nth (List.length xs - 1) xs 0.
Proof.
  intros Hne. destruct (exists_last Hne) as (ys & a & ->).
  rewrite last_last, length_app. simpl.
  rewrite app_nth2 by lia.
  replace (List.length ys + 1 - 1 - List.length ys)%nat with O by lia.
  reflexivity.
Qed.

Lemma recorded_pointwise (f : R) (raws : list R) (i : nat) :
  (i < List.length raws)%nat ->
  nth i (recorded f raws) 0 =
  if (i =? 0)%nat then nth i raws 0
  else if float_gt f 0 then
    f * nth i raws 0 + (1 - f) * nth (i - 1) (recorded f raws) 0
  else nth i raws 0.
Proof.
  revert i. induction raws as [|x raws IH] using rev_ind; intros i Hi.
  - simpl in Hi. lia.
  - rewrite recorded_snoc.
    pose proof (recorded_length f raws) as HlenH.
    rewrite length_app in Hi. simpl in Hi.
    destruct (Nat.eq_dec i (List.length raws)) as [->|Hne].
    + rewrite (app_nth2 raws) by lia. rewrite Nat.sub_diag.
      rewrite (app_nth2 (recorded f raws)) by lia.
      rewrite HlenH at 1. rewrite Nat.sub_diag.
      simpl nth at 1 2. unfold recorded_loss. rewrite HlenH.
      destruct (Nat.eq_dec (List.length raws) 0) as [Hz|Hnz].
      * rewrite Hz. reflexivity.
      * replace (Z.of_nat (List.length raws) =? 0)%Z with false
          by (symmetry; apply Z.eqb_neq; lia).
        replace (List.length raws =? 0)%nat with false
          by (symmetry; apply Nat.eqb_neq; lia).
        rewrite (app_nth1 (recorded f raws)) by (rewrite HlenH; lia).
        rewrite last_is_nth
          by (intros Hnil; rewrite Hnil in HlenH; simpl in HlenH; lia).
        rewrite HlenH. reflexivity.
    + rewrite !app_nth1 by (rewrite ?HlenH; lia).
      apply IH. lia.
Qed.

(** Whatever happens before the loop, the results are cleared, the
    executors have not run and the finder keeps its executors. *)
Lemma range_test_setup_resets (start_lr : option lr_value) (e : R) (N : Z)
    (step_mode : string) (smooth_f : R) (st : state) :
  let st1 := fst (range_test_setup start_lr e N step_mode smooth_f st) in
  history_lr st1 = [] /\ history_loss st1 = [] /\ best_loss st1 = None /\
  world st1 = world st /\ train_step st1 = train_step st /\
  val_step st1 = val_step st.
Proof.
  rewrite range_test_setup_spec. cbv zeta.
  destruct (check_groups (optimizer st)) as [[]|?]; [|simpl; tauto].
  destruct (negb (fits start_lr (optimizer st))); [simpl; tauto|].
  destruct (policy_of_mode step_mode); [|simpl; tauto].
  destruct (N <=? 1)%Z; [simpl; tauto|].
  destruct (get_lr _); [|simpl; tauto].
  destruct (float_lt smooth_f 0 || float_ge smooth_f 1); simpl; tauto.
Qed.

(** A run returns when its arguments pass the checks, the schedule
    yields a first rate at every iteration and the executors return
    [num_iter] losses. *)
Lemma range_test_returns (start_lr : option lr_value) (e : R) (N : Z)
    (step_mode : string) (smooth_f diverge_th : R) (st : state) (c : policy) :
  existsb has_initial_lr (optimizer st) = false ->
  fits start_lr (optimizer st) = true ->
  policy_of_mode step_mode = Some c ->
  (1 < N)%Z ->
  0 <= smooth_f < 1 ->
  (forall i, (0 <= i <= N)%Z ->
     exists lr0 rest,
       get_lr (schedule_at c e N
                 (map lr (groups_at_start start_lr (optimizer st))) i) =
       Ok (lr0 :: rest)) ->
  List.length (raw_losses (train_step st) (val_step st) (Z.to_nat N) (world st)) =
  Z.to_nat N ->
  exists st', range_test start_lr e N step_mode smooth_f diverge_th st = (st', Ok tt).
Proof.
  intros Hmark Hfits Hmode HN Hf Hsched Hraws.
  unfold range_test, bind. rewrite range_test_setup_spec. cbv zeta.
  rewrite check_groups_result, Hmark, Hfits, Hmode. simpl negb. cbv iota.
  replace (N <=? 1)%Z with false by (symmetry; apply Z.leb_gt; exact HN).
  set (bases := map lr (groups_at_start start_lr (optimizer st))) in *.
  assert (Hfirst : exists lrs, get_lr (mk_scheduler c e N bases 0) = Ok lrs).
  { destruct (Hsched (if legacy then 1 else 0)%Z ltac:(destruct legacy; lia))
      as (lr0 & rest & H).
    exists (lr0 :: rest). rewrite <- H. unfold schedule_at, epoch_of_iteration.
    destruct legacy; reflexivity. }
  destruct Hfirst as (lrs & ->).
  replace (float_lt smooth_f 0 || float_ge smooth_f 1) with false.
  2:{ symmetry. apply not_true_is_false. intros H. apply float_checks in H. lra. }
  match goal with
  | |- exists st', ?run = _ =>
      exists (fst run); rewrite (surjective_pairing run) at 1; f_equal
  end.
  apply (for_range_returns c e N bases (train_step st) (val_step st) (world st));
    try (destruct st; reflexivity).
  - intros i Hi. apply Hsched. lia.
  - exact Hraws.
Qed.

Lemma linear_schedule_yields (e : R) (N : Z) (b0 : R) (others : list R) (i : Z) :
  (1 < N)%Z ->
  exists lr0 rest,
    get_lr (schedule_at LinearLR_class e N (b0 :: others) i) = Ok (lr0 :: rest).
Proof.
  intros HN. unfold schedule_at. rewrite LinearLR_at by exact HN.
  simpl. eauto.
Qed.

(** *** The claims about the losses *)

Lemma returning_sweep_records (train : Step) (val : option Step) (w0 : W)
    (smooth_f diverge_th : R) (T : nat) (out : state * result unit) :
  losses_outcome train val w0 smooth_f diverge_th T out ->
  snd out = Ok tt -> (1 <= T)%nat ->
  (1 <= List.length (history_loss (fst out)))%nat.
Proof.
  intros (K & _ & Hlen & Hh & _ & _ & Hok) Hres HT.
  rewrite Hh, recorded_length, Hlen.
  destruct (Hok Hres) as [_ [[-> _]|(i & -> & _)]]; lia.
Qed.


(** The least element of a fold with [Rmin]. *)
Lemma fold_Rmin_spec (xs : list R) (x : R) :
  let b := fold_left Rmin xs x in
  (b = x \/ In b xs) /\ b <= x /\ Forall (fun l => b <= l) xs.
Proof.
  revert x. induction xs as [|y ys IH]; intros x; simpl.
  - split; [left; reflexivity|]. split; [lra|constructor].
  - destruct (IH (Rmin x y)) as (Hin & Hle & Hall).
    pose proof (Rmin_l x y) as Hl. pose proof (Rmin_r x y) as Hr.
    split; [|split].
    + destruct Hin as [Heq|Hin]; [|right; right; exact Hin].
      rewrite Heq. unfold Rmin. destruct (Rle_dec x y); [left|right; left]; reflexivity.
    + lra.
    + constructor; [lra|exact Hall].
Qed.

(** The minimum of a list is one of its elements, and no element
    compares less than it. *)
Lemma minimum_spec (xs : list R) (b : R) :
  minimum xs = Some b -> In b xs /\ Forall (fun l => float_lt l b = false) xs.
Proof.
  destruct xs as [|x xs]; simpl; [discriminate|].
  intros H. injection H as <-.
  destruct (fold_Rmin_spec xs x) as (Hin & Hle & Hall). cbv zeta in *.
  assert (Hlt : forall l, fold_left Rmin xs x <= l ->
                  float_lt l (fold_left Rmin xs x) = false).
  { intros l Hl. unfold float_lt.
    destruct (Rlt_dec l (fold_left Rmin xs x)); [lra|reflexivity]. }
  split.
  - destruct Hin as [->|Hin]; [left; reflexivity|right; exact Hin].
  - constructor; [apply Hlt; exact Hle|].
    eapply Forall_impl; [|exact Hall]. intros l Hl. apply Hlt. exact Hl.
Qed.

(** C2: in every run of [range_test], the loss recorded at iteration [i]
    is the raw loss of the executors when [i = 0] or [smooth_f = 0], and
    is [smooth_f * raw_i + (1 - smooth_f) * recorded_(i-1)] when [i > 0]
    and [smooth_f > 0].  The losses are recorded: a run that returns has
    called the executors once per record and holds at least one record,
    [num_iter] of them unless the last one diverges, and every iteration
    that returns appends the loss so computed to History. *)
Theorem recorded_losses_are_smoothed (start_lr : option lr_value) (e : R) (N : Z)
    (step_mode : string) (smooth_f diverge_th : R) (st : state) :
  let out := range_test start_lr e N step_mode smooth_f diverge_th st in
  let losses := history_loss (fst out) in
  let raws := raw_losses (train_step st) (val_step st) (List.length losses) (world st) in
  List.length raws = List.length losses /\
  (forall i, (i < List.length losses)%nat ->
     ((i = 0%nat \/ smooth_f = 0) -> nth i losses 0 = nth i raws 0) /\
     ((0 < i)%nat /\ smooth_f > 0 ->
      nth i losses 0 =
      smooth_f * nth i raws 0 + (1 - smooth_f) * nth (i - 1) losses 0)) /\
  (snd out = Ok tt ->
   (1 <= List.length losses)%nat /\
   world (fst out) =
   world_after (train_step st) (val_step st) (List.length losses) (world st) /\
   (List.length losses = Z.to_nat N \/
    exists i, List.length losses = S i /\ diverges diverge_th losses i = true)) /\
  (forall it sched s s' r,
     iteration_body smooth_f diverge_th it sched s = (s', Ok r) ->
     exists w1 raw,
       one_loss (train_step s) (val_step s) (world s) = (w1, Ok raw) /\
       world s' = w1 /\
       history_loss s' =
       history_loss s ++
       [if (it =? 0)%Z then raw
        else if float_gt smooth_f 0
             then smooth_f * raw + (1 - smooth_f) * last (history_loss s) 0
             else raw]).
Proof.
  intros out losses raws.
  assert (H : exists K,
             List.length (raw_losses (train_step st) (val_step st) K (world st)) = K /\
             losses = recorded smooth_f
                        (raw_losses (train_step st) (val_step st) K (world st)) /\
             (snd out = Ok tt ->
              (1 <= K)%nat /\
              world (fst out) = world_after (train_step st) (val_step st) K (world st) /\
              (K = Z.to_nat N \/
               exists i, K = S i /\ diverges diverge_th losses i = true))).
  { pose proof (range_test_cases start_lr e N step_mode smooth_f diverge_th st) as Hc.
    cbv zeta in Hc. fold out in Hc.
    pose proof (range_test_setup_resets start_lr e N step_mode smooth_f st) as Hr.
    cbv zeta in Hr.
    destruct (range_test_setup start_lr e N step_mode smooth_f st) as [st1 [sched|err]].
    - destruct Hc as (c & _ & HN & (K & HKT & Hlen & Hh & _ & _ & Hok) & _).
      exists K. split; [exact Hlen|]. split; [exact Hh|].
      intros Hres. destruct (Hok Hres) as [Hw Hend].
      split; [|split; [exact Hw|]].
      + destruct Hend as [[-> _]|(i & -> & _)]; lia.
      + destruct Hend as [[HK _]|(i & HK & Hd)]; [left; exact HK|right].
        exists i. split; [exact HK|exact Hd].
    - exists O. split; [reflexivity|]. split.
      + subst losses. rewrite Hc. simpl in *.
        destruct Hr as (_ & -> & _). reflexivity.
      + rewrite Hc. simpl. discriminate. }
  destruct H as (K & Hlen & Hh & Hok).
  assert (HK : List.length losses = K) by (rewrite Hh, recorded_length; exact Hlen).
  subst raws. rewrite HK. split; [exact Hlen|]. split; [|split].
  - intros i Hi. rewrite Hh.
    rewrite recorded_pointwise by lia. split.
    + intros [->|Hf]; [reflexivity|].
      destruct (i =? 0)%nat; [reflexivity|].
      unfold float_gt, float_lt. destruct (Rlt_dec 0 smooth_f); [lra|reflexivity].
    + intros [Hi0 Hf].
      replace (i =? 0)%nat with false by (symmetry; apply Nat.eqb_neq; lia).
      unfold float_gt, float_lt. destruct (Rlt_dec 0 smooth_f); [reflexivity|lra].
  - exact Hok.
  - intros it sched s s' r Hbody.
    pose proof (iteration_body_cases smooth_f diverge_th it sched s) as Hc.
    rewrite Hbody in Hc.
    destruct Hc as (w' & raw & lr0 & rest & lrs' & Hone & _ & _ & Hst & _).
    exists w', raw. split; [exact Hone|]. subst s'. simpl.
    split; reflexivity.
Qed.

(** C3: in a run of [range_test] that returns, History holds as many
    learning rates as losses and the executors ran once per record; if no
    recorded loss exceeds [diverge_th] times the best loss so far, all
    [num_iter] iterations ran; if the loss of iteration [i] does, the run
    stopped there with exactly [i+1] records. *)
Theorem sweep_stops_at_divergence (start_lr : option lr_value) (e : R) (N : Z)
    (step_mode : string) (smooth_f diverge_th : R) (st st' : state) :
  range_test start_lr e N step_mode smooth_f diverge_th st = (st', Ok tt) ->
  let losses := history_loss st' in
  let K := List.length losses in
  List.length (history_lr st') = K /\
  world st' = world_after (train_step st) (val_step st) K (world st) /\
  ((forall i, (i < K)%nat -> diverges diverge_th losses i = false) ->
   Z.of_nat K = N) /\
  (forall i, (i < K)%nat -> diverges diverge_th losses i = true -> K = S i).
Proof.
  intros Hrun losses K.
  pose proof (range_test_cases start_lr e N step_mode smooth_f diverge_th st) as Hc.
  cbv zeta in Hc. rewrite Hrun in Hc.
  destruct (range_test_setup start_lr e N step_mode smooth_f st) as [st1 [sched|err]];
    [|discriminate].
  destruct Hc as (c & _ & HN & (K' & _ & Hlen & Hh & _ & Hbefore & Hok) & (_ & _ & Hlr)).
  simpl in Hh, Hbefore, Hok, Hlr.
  destruct (Hok eq_refl) as [Hworld Hend].
  destruct (Hlr eq_refl) as [Hlens _].
  assert (HK : K = K').
  { subst K losses. rewrite Hh, recorded_length. exact Hlen. }
  fold losses in Hbefore, Hend. rewrite <- HK in *.
  split; [exact Hlens|]. split; [exact Hworld|]. split.
  - intros Hnone. destruct Hend as [[HT _]|(i & Hi & Hdiv)].
    + rewrite HT. apply Z2Nat.id. lia.
    + rewrite Hnone in Hdiv by lia. discriminate.
  - intros i Hi Hdiv.
    destruct (Nat.lt_ge_cases (S i) K) as [Hlt|Hge]; [|lia].
    rewrite Hbefore in Hdiv by exact Hlt. discriminate.
Qed.

Lemma updated_best_le (p : positive) (loss b : R) :
  updated_best (Z.pos p) loss (Some b) <= b.
Proof.
  unfold updated_best, float_lt. simpl.
  destruct (Rlt_dec loss b); lra.
Qed.

(** C4: BestLoss is initialised to the loss recorded by the first
    iteration, an iteration after the first never increases it, and after
    any number of iterations of the loop, as at the end of every run, it
    is the minimum of the losses recorded in History.  BestLoss is set: a
    loop of at least one iteration that returns, and so every run that
    returns, leaves BestLoss at a loss of History, and no loss of History
    compares less than it; after the first iteration of the loop it is the
    one loss recorded. *)
Theorem best_loss_is_running_minimum (smooth_f diverge_th : R) :
  (forall sched st st' out,
     iteration_body smooth_f diverge_th 0 sched st = (st', Ok out) ->
     exists loss,
       history_loss st' = history_loss st ++ [loss] /\
       best_loss st' = Some loss) /\
  (forall p sched st b,
     best_loss st = Some b ->
     exists b',
       best_loss (fst (iteration_body smooth_f diverge_th (Z.pos p) sched st)) =
       Some b' /\ b' <= b) /\
  (forall n sched st,
     let out := for_range smooth_f diverge_th n 0 sched (reset_results st) in
     best_loss (fst out) = minimum (history_loss (fst out)) /\
     (snd out = Ok tt -> (1 <= n)%nat ->
      exists b,
        best_loss (fst out) = Some b /\
        In b (history_loss (fst out)) /\
        Forall (fun l => float_lt l b = false) (history_loss (fst out)))) /\
  (forall sched st,
     let out := for_range smooth_f diverge_th 1 0 sched (reset_results st) in
     snd out = Ok tt ->
     exists l0, history_loss (fst out) = [l0] /\ best_loss (fst out) = Some l0) /\
  (forall start_lr e N step_mode st,
     let out := range_test start_lr e N step_mode smooth_f diverge_th st in
     best_loss (fst out) = minimum (history_loss (fst out)) /\
     (snd out = Ok tt ->
      exists b,
        best_loss (fst out) = Some b /\
        In b (history_loss (fst out)) /\
        Forall (fun l => float_lt l b = false) (history_loss (fst out)))).
Proof.
  assert (Hloop : forall n sched st,
            losses_outcome (train_step st) (val_step st) (world st)
              smooth_f diverge_th n
              (for_range smooth_f diverge_th n 0 sched (reset_results st))).
  { intros n sched st.
    apply (for_range_losses (train_step st) (val_step st) (world st)
             smooth_f diverge_th n n 0 sched (reset_results st) eq_refl).
    destruct st; unfold losses_invariant; simpl. repeat split; auto.
    all: intros j Hj; lia. }
  assert (Hset : forall xs : list R, (1 <= List.length xs)%nat ->
            exists b, minimum xs = Some b /\ In b xs /\
                      Forall (fun l => float_lt l b = false) xs).
  { intros xs Hxs. destruct (minimum xs) as [b|] eqn:Hm.
    - exists b. split; [reflexivity|]. apply minimum_spec. exact Hm.
    - destruct xs; [simpl in Hxs; lia|discriminate]. }
  split; [|split; [|split; [|split]]].
  - intros sched st st' out Hrun.
    pose proof (iteration_body_cases smooth_f diverge_th 0 sched st) as Hc.
    rewrite Hrun in Hc.
    destruct Hc as (w' & raw & lr0 & rest & lrs' & _ & _ & _ & Hst & _).
    eexists. subst st'. simpl. split; reflexivity.
  - intros p sched st b Hb.
    pose proof (iteration_body_cases smooth_f diverge_th (Z.pos p) sched st) as Hc.
    destruct (iteration_body smooth_f diverge_th (Z.pos p) sched st)
      as [st' [out|err]]; simpl.
    + destruct Hc as (w' & raw & lr0 & rest & lrs' & _ & _ & _ & Hst & _).
      subst st'. simpl. eexists. split; [reflexivity|].
      rewrite Hb. apply updated_best_le.
    + destruct Hc as (_ & _ & _ & Hbest & _).
      exists b. split; [congruence|lra].
  - intros n sched st out.
    pose proof (Hloop n sched st) as Hout. fold out in Hout.
    assert (Hb : best_loss (fst out) = minimum (history_loss (fst out)))
      by (destruct Hout as (K & _ & _ & _ & Hb & _); exact Hb).
    split; [exact Hb|].
    intros Hok Hn. rewrite Hb. apply Hset.
    apply (returning_sweep_records _ _ _ _ _ _ _ Hout Hok Hn).
  - intros sched st out Hok.
    pose proof (Hloop 1%nat sched st) as Hout. fold out in Hout.
    pose proof (returning_sweep_records _ _ _ _ _ _ _ Hout Hok (le_n 1)) as Hone.
    destruct Hout as (K & HK & Hlen & Hh & Hb & _).
    assert (HlenH : List.length (history_loss (fst out)) = 1%nat).
    { rewrite Hh, recorded_length, Hlen in *. lia. }
    destruct (history_loss (fst out)) as [|l0 [|l1 ls]] eqn:Hl; try discriminate.
    exists l0. split; [reflexivity|]. rewrite Hb. reflexivity.
  - intros start_lr e N step_mode st out.
    pose proof (range_test_cases start_lr e N step_mode smooth_f diverge_th st) as Hc.
    cbv zeta in Hc. fold out in Hc.
    pose proof (range_test_setup_resets start_lr e N step_mode smooth_f st) as Hr.
    cbv zeta in Hr.
    destruct (range_test_setup start_lr e N step_mode smooth_f st) as [st1 [sched|err]].
    + destruct Hc as (c & _ & HN & Hout & _).
      assert (Hb : best_loss (fst out) = minimum (history_loss (fst out)))
        by (destruct Hout as (K & _ & _ & _ & Hb & _); exact Hb).
      split; [exact Hb|].
      intros Hok. rewrite Hb. apply Hset.
      apply (returning_sweep_records _ _ _ _ _ _ _ Hout Hok). lia.
    + rewrite Hc. simpl in *.
      destruct Hr as (_ & -> & -> & _). split; [reflexivity|discriminate].
Qed.

(** *** The claims about the learning rates *)

Lemma comprehension_head {A B} (f : A -> result B) (x : A) (xs : list A)
    (y : B) (ys : list B) :
  comprehension f (x :: xs) = Ok (y :: ys) -> comprehension f [x] = Ok [y].
Proof.
  simpl. destruct (f x) as [y'|err]; simpl; [|discriminate].
  destruct (comprehension f xs) as [ys'|err]; simpl; [|discriminate].
  intros H. injection H as -> _. reflexivity.
Qed.

Lemma get_lr_head (c : policy) (e : R) (N : Z) (b0 : R) (others : list R)
    (ep : Z) (v : R) (rest : list R) :
  get_lr (mk_scheduler c e N (b0 :: others) ep) = Ok (v :: rest) ->
  get_lr (mk_scheduler c e N [b0] ep) = Ok [v].
Proof.
  unfold get_lr, LinearLR_get_lr, ExponentialLR_get_lr, ratio.
  cbn [cls end_lr num_iter base_lrs last_epoch].
  destruct c;
    (destruct legacy;
     [ destruct (truediv (IZR (ep + 1)) (IZR (N - 1))) as [r|err]
     | destruct (truediv (IZR ep) (IZR (N - 1))) as [r|err] ];
     cbn [rbind]; try discriminate; apply comprehension_head).
Qed.


(** *** Errors raised before the loop *)

Lemma range_test_marked (start_lr : option lr_value) (e : R) (N : Z)
    (step_mode : string) (smooth_f diverge_th : R) (st : state) :
  existsb has_initial_lr (optimizer st) = true ->
  range_test start_lr e N step_mode smooth_f diverge_th st =
  (reset_results st,
   Raise (RuntimeError "Optimizer already has a scheduler attached to it")).
Proof.
  intros Hm. unfold range_test, bind. rewrite range_test_setup_spec. cbv zeta.
  rewrite check_groups_result, Hm. reflexivity.
Qed.

Lemma marks_all_some (groups groups' : list param_group) :
  map initial_lr groups' = map (fun g => Some (lr g)) groups ->
  Forall (fun g => has_initial_lr g = true) groups' /\
  List.length groups' = List.length groups.
Proof.
  revert groups. induction groups' as [|g' gs' IH]; intros [|g gs] H;
    simpl in H; try discriminate.
  - split; [constructor|reflexivity].
  - injection H as Hg Hgs. destruct (IH gs Hgs) as [Hall Hlen].
    split; [|simpl; congruence].
    constructor; [|exact Hall]. unfold has_initial_lr. rewrite Hg. reflexivity.
Qed.

(** C10: a run of [range_test] that returns leaves an ["initial_lr"] entry
    on every parameter group of the optimizer, of which there is at least
    one; so any further call of [range_test] on that finder raises
    "Optimizer already has a scheduler attached to it" right after
    clearing the results, before any iteration. *)
Theorem second_range_test_conflicts (start_lr : option lr_value) (e : R) (N : Z)
    (step_mode : string) (smooth_f diverge_th : R) (st st1 : state) :
  range_test start_lr e N step_mode smooth_f diverge_th st = (st1, Ok tt) ->
  optimizer st1 <> [] /\
  Forall (fun g => has_initial_lr g = true) (optimizer st1) /\
  forall start_lr' e' N' step_mode' smooth_f' diverge_th',
    range_test start_lr' e' N' step_mode' smooth_f' diverge_th' st1 =
    (reset_results st1,
     Raise (RuntimeError "Optimizer already has a scheduler attached to it")).
Proof.
  intros Hrun.
  pose proof (range_test_cases start_lr e N step_mode smooth_f diverge_th st) as Hc.
  cbv zeta in Hc. rewrite Hrun in Hc.
  destruct (range_test_setup start_lr e N step_mode smooth_f st) as [st0 [sched|err]];
    [|discriminate].
  destruct Hc as (c & _ & HN & Hlosses & (Hh & Hmarks & Hlr)).
  simpl in Hh, Hmarks, Hlr.
  destruct (marks_all_some _ _ Hmarks) as [Hall Hlen].
  pose proof (returning_sweep_records _ _ _ _ _ _ _ Hlosses eq_refl
                ltac:(lia)) as HK.
  simpl in HK. destruct (Hlr eq_refl) as [Hlens _].
  destruct (Hh O ltac:(lia)) as (rest & Hget).
  apply get_lr_length in Hget. simpl in Hget. rewrite length_map in Hget.
  assert (Hne : optimizer st1 <> []).
  { intros Hnil. rewrite Hnil in Hlen. simpl in Hlen. lia. }
  split; [exact Hne|]. split; [exact Hall|].
  intros. apply range_test_marked.
  destruct (optimizer st1) as [|g gs]; [contradiction|].
  inversion Hall as [|? ? Hg _]. simpl. rewrite Hg. reflexivity.
Qed.

(** C5, as the code has it: with [num_iter <= 1], a [smooth_f] outside
    [0, 1), an unknown [step_mode] or an ["initial_lr"] entry on a group,
    [range_test] raises before any iteration: no executor runs, and
    History and BestLoss are cleared by the call.  The ["initial_lr"]
    check comes first and leaves the parameter groups untouched; the
    [step_mode] and [num_iter] errors come after an accepted [start_lr]
    has been written into the groups; the [smooth_f] error comes last, once
    the schedule is constructed. *)
Theorem range_test_fails_before_loop (start_lr : option lr_value) (e : R) (N : Z)
    (step_mode : string) (smooth_f diverge_th : R) (st : state) :
  (N <= 1)%Z \/ smooth_f < 0 \/ 1 <= smooth_f \/
  policy_of_mode step_mode = None \/
  existsb has_initial_lr (optimizer st) = true ->
  let out := range_test start_lr e N step_mode smooth_f diverge_th st in
  let groups := groups_at_start start_lr (optimizer st) in
  (exists err, snd out = Raise err) /\
  world (fst out) = world st /\
  history_lr (fst out) = [] /\ history_loss (fst out) = [] /\
  best_loss (fst out) = None /\
  (existsb has_initial_lr (optimizer st) = true ->
   snd out = Raise (RuntimeError "Optimizer already has a scheduler attached to it") /\
   optimizer (fst out) = optimizer st) /\
  (existsb has_initial_lr (optimizer st) = false ->
   fits start_lr (optimizer st) = true ->
   (policy_of_mode step_mode = None ->
    snd out = Raise (ValueError
                (String.append "expected one of (exp, linear), got " step_mode)) /\
    optimizer (fst out) = groups) /\
   (forall c, policy_of_mode step_mode = Some c ->
      ((N <= 1)%Z ->
       snd out = Raise (ValueError "`num_iter` must be larger than 1") /\
       optimizer (fst out) = groups) /\
      (forall lrs, (1 < N)%Z ->
         get_lr (mk_scheduler c e N (map lr groups) 0) = Ok lrs ->
         smooth_f < 0 \/ 1 <= smooth_f ->
         snd out = Raise (ValueError "smooth_f is outside the range [0, 1[")))).
Proof.
  intros Hbad out groups. subst out. unfold range_test, bind.
  rewrite range_test_setup_spec. cbv zeta. fold groups.
  rewrite check_groups_result.
  destruct (existsb has_initial_lr (optimizer st)) eqn:Hmark.
  { simpl. repeat split; eauto; discriminate. }
  destruct (fits start_lr (optimizer st)) eqn:Hfits; simpl negb; cbv iota.
  2:{ simpl. repeat split; eauto; discriminate. }
  destruct (policy_of_mode step_mode) as [c|] eqn:Hmode.
  2:{ simpl. repeat split; eauto; discriminate. }
  destruct (N <=? 1)%Z eqn:HN.
  { apply Z.leb_le in HN. simpl. repeat split; eauto; try discriminate.
    intros; lia. }
  apply Z.leb_gt in HN.
  destruct (get_lr (mk_scheduler c e N (map lr groups) 0)) as [lrs|err] eqn:Hget.
  2:{ simpl. repeat split; eauto; try discriminate; try lia.
      intros lrs _ Hget' _. congruence. }
  destruct (float_lt smooth_f 0 || float_ge smooth_f 1) eqn:Hf.
  { simpl. repeat split; eauto; try discriminate; lia. }
  exfalso.
  assert (Hf' : ~ (smooth_f < 0 \/ 1 <= smooth_f)).
  { intros H. apply float_checks in H. congruence. }
  destruct Hbad as [H|[H|[H|[H|H]]]]; try lia; try discriminate; tauto.
Qed.

(** *** The starting learning rate *)

Lemma truthy_zero : truthy (Scalar 0) = false.
Proof. unfold truthy. destruct (Req_dec_T 0 0); [reflexivity|contradiction]. Qed.

Lemma truthy_nonzero (x : R) : x <> 0 -> truthy (Scalar x) = true.
Proof. intros Hx. unfold truthy. destruct (Req_dec_T x 0); [contradiction|reflexivity]. Qed.

(** C6, where the code departs from it: a [start_lr] of [0.0], like an
    empty list, is falsy, so [range_test] treats it exactly as an absent
    [start_lr]: no learning rate is overwritten and no length is
    checked. *)
Theorem falsy_start_lr_is_ignored (e : R) (N : Z) (step_mode : string)
    (smooth_f diverge_th : R) (st : state) :
  range_test (Some (Scalar 0)) e N step_mode smooth_f diverge_th st =
  range_test None e N step_mode smooth_f diverge_th st /\
  range_test (Some (PerGroup [])) e N step_mode smooth_f diverge_th st =
  range_test None e N step_mode smooth_f diverge_th st.
Proof.
  unfold range_test, range_test_setup. rewrite truthy_zero. simpl truthy.
  split; reflexivity.
Qed.

(** The part of C6 the code does implement: a truthy [start_lr] is
    written into every group (a scalar is broadcast) before the schedule
    captures its base rates, and a list of the wrong length raises. *)
Lemma truthy_start_lr_is_written (v : lr_value) (e : R) (N : Z)
    (step_mode : string) (smooth_f : R) (st st1 : state) (sched : scheduler) :
  truthy v = true ->
  range_test_setup (Some v) e N step_mode smooth_f st = (st1, Ok sched) ->
  base_lrs sched =
  match v with
  | Scalar x => repeat x (List.length (optimizer st))
  | PerGroup xs => xs
  end.
Proof.
  intros Hv. rewrite range_test_setup_spec. cbv zeta.
  destruct (check_groups (optimizer st)) as [[]|?]; [|discriminate].
  unfold fits, groups_at_start. rewrite Hv.
  match goal with |- context [negb ?b] => destruct b eqn:Hlen end;
    simpl negb; cbv iota; [|discriminate].
  apply Nat.eqb_eq in Hlen.
  destruct (policy_of_mode step_mode) as [c|]; [|discriminate].
  destruct (N <=? 1)%Z; [discriminate|].
  destruct (get_lr _); [|discriminate].
  destruct (float_lt smooth_f 0 || float_ge smooth_f 1); [discriminate|].
  intros H. injection H as _ <-. simpl.
  apply assign_lrs_lr. exact Hlen.
Qed.

Lemma mismatched_start_lr_raises (xs : list R) (e : R) (N : Z)
    (step_mode : string) (smooth_f diverge_th : R) (st : state) :
  xs <> [] ->
  List.length xs <> List.length (optimizer st) ->
  existsb has_initial_lr (optimizer st) = false ->
  range_test (Some (PerGroup xs)) e N step_mode smooth_f diverge_th st =
  (reset_results st,
   Raise (ValueError
     "Length of `new_lrs` is not equal to the number of parameter groups in the given optimizer")).
Proof.
  intros Hne Hlen Hmark. unfold range_test, bind.
  rewrite range_test_setup_spec. cbv zeta.
  rewrite check_groups_result, Hmark.
  unfold fits. destruct xs as [|x xs]; [contradiction|]. simpl truthy. cbv iota.
  replace (List.length (x :: xs) =? List.length (optimizer st))%nat with false
    by (symmetry; apply Nat.eqb_neq; exact Hlen).
  reflexivity.
Qed.

(** *** The analyzer *)

Lemma trim_drops {A} (skip_start skip_end : Z) (xs : list A) :
  (0 <= skip_start)%Z -> (0 <= skip_end)%Z ->
  trim skip_start skip_end xs =
  firstn (List.length xs - Z.to_nat skip_start - Z.to_nat skip_end)
         (skipn (Z.to_nat skip_start) xs).
Proof.
  intros Hs He. unfold trim, slice, slice_bound.
  replace (skip_start <? 0)%Z with false by (symmetry; apply Z.ltb_ge; lia).
  destruct (Z.le_gt_cases (Z.of_nat (List.length xs)) skip_start) as [Hbig|Hsmall].
  - rewrite Z.min_r by lia. rewrite Nat2Z.id.
    rewrite skipn_all, (skipn_all2 (n := Z.to_nat skip_start)) by lia.
    rewrite !firstn_nil. destruct (skip_end =? 0)%Z; reflexivity.
  - rewrite Z.min_l by lia.
    destruct (skip_end =? 0)%Z eqn:He0.
    + apply Z.eqb_eq in He0. subst skip_end. f_equal. lia.
    + apply Z.eqb_neq in He0.
      replace (- skip_end <? 0)%Z with true by (symmetry; apply Z.ltb_lt; lia).
      f_equal. lia.
Qed.


(** [argmin] returns the first index of a least element. *)
Lemma argmin_from_spec (xs pre : list R) (bi : nat) (b : R) :
  (bi < List.length pre)%nat ->
  nth bi pre 0 = b ->
  (forall j, (j < List.length pre)%nat -> b <= nth j pre 0) ->
  (forall j, (j < bi)%nat -> b < nth j pre 0) ->
  let k := argmin_from xs (List.length pre) bi b in
  (k < List.length (pre ++ xs))%nat /\
  (forall j, (j < List.length (pre ++ xs))%nat ->
     nth k (pre ++ xs) 0 <= nth j (pre ++ xs) 0) /\
  (forall j, (j < k)%nat -> nth k (pre ++ xs) 0 < nth j (pre ++ xs) 0).
Proof.
  revert pre bi b. induction xs as [|x xs IH]; intros pre bi b Hbi Hb Hle Hlt.
  - simpl. rewrite app_nil_r. subst b. repeat split; auto.
  - simpl argmin_from.
    replace (pre ++ x :: xs) with ((pre ++ [x]) ++ xs)
      by (rewrite <- app_assoc; reflexivity).
    replace (S (List.length pre)) with (List.length (pre ++ [x]))
      by (rewrite length_app; simpl; lia).
    assert (Hnth : forall j, (j < List.length pre)%nat ->
              nth j (pre ++ [x]) 0 = nth j pre 0)
      by (intros j Hj; apply app_nth1; exact Hj).
    assert (Hnew : nth (List.length pre) (pre ++ [x]) 0 = x)
      by (rewrite app_nth2, Nat.sub_diag by lia; reflexivity).
    unfold float_lt. destruct (Rlt_dec x b) as [Hxb|Hxb].
    + apply IH.
      * rewrite length_app. simpl. lia.
      * exact Hnew.
      * intros j Hj. rewrite length_app in Hj. simpl in Hj.
        destruct (Nat.eq_dec j (List.length pre)) as [->|Hne].
        -- rewrite Hnew. lra.
        -- rewrite Hnth by lia. specialize (Hle j ltac:(lia)). lra.
      * intros j Hj. rewrite Hnth by lia. specialize (Hle j ltac:(lia)). lra.
    + apply IH.
      * rewrite length_app. simpl. lia.
      * rewrite Hnth by lia. exact Hb.
      * intros j Hj. rewrite length_app in Hj. simpl in Hj.
        destruct (Nat.eq_dec j (List.length pre)) as [->|Hne].
        -- rewrite Hnew. lra.
        -- rewrite Hnth by lia. apply Hle. lia.
      * intros j Hj. rewrite Hnth by lia. apply Hlt. exact Hj.
Qed.

Lemma argmin_spec (xs : list R) :
  xs <> [] ->
  exists k,
    argmin xs = Ok k /\
    (k < List.length xs)%nat /\
    (forall j, (j < List.length xs)%nat -> nth k xs 0 <= nth j xs 0) /\
    (forall j, (j < k)%nat -> nth k xs 0 < nth j xs 0).
Proof.
  destruct xs as [|x xs]; [contradiction|]. intros _.
  exists (argmin_from xs 1 0 x). split; [reflexivity|].
  apply (argmin_from_spec xs [x] 0 x).
  - simpl. lia.
  - reflexivity.
  - intros [|j] Hj; simpl in *; [lra|lia].
  - intros j Hj. lia.
Qed.

(** With at least two points, [steepest] is the first index at which the
    finite-difference gradient is least; with fewer there is none. *)
Lemma steepest_spec (losses : list R) :
  ((List.length losses < 2)%nat -> steepest losses = Ok None) /\
  ((2 <= List.length losses)%nat ->
   exists g k,
     gradient losses = Ok g /\
     List.length g = List.length losses /\
     steepest losses = Ok (Some k) /\
     (k < List.length g)%nat /\
     (forall j, (j < List.length g)%nat -> nth k g 0 <= nth j g 0) /\
     (forall j, (j < k)%nat -> nth k g 0 < nth j g 0)).
Proof.
  unfold steepest, gradient. split; intros Hlen.
  - replace (List.length losses <? 2)%nat with true
      by (symmetry; apply Nat.ltb_lt; exact Hlen).
    reflexivity.
  - replace (List.length losses <? 2)%nat with false
      by (symmetry; apply Nat.ltb_ge; exact Hlen).
    simpl rbind.
    match goal with
    | |- context [Ok ?l = Ok _] => set (g := l)
    end.
    assert (Hg : List.length g = List.length losses)
      by (subst g; rewrite length_map, length_seq; reflexivity).
    assert (Hne : g <> []).
    { intros Hnil. rewrite Hnil in Hg. simpl in Hg. lia. }
    destruct (argmin_spec g Hne) as (k & Hk & Hlt & Hmin & Hfirst).
    exists g, k. rewrite Hk. repeat split; auto.
Qed.

(** [ax.plot] draws two series of the same length, and raises on two
    series of different lengths. *)
Lemma ax_plot_same {A} (xs ys : list A) :
  List.length xs = List.length ys -> ax_plot xs ys = Ok tt.
Proof.
  intros H. unfold ax_plot. rewrite H, Nat.eqb_refl. reflexivity.
Qed.

Lemma ax_plot_differ {A} (xs ys : list A) :
  List.length xs <> List.length ys -> exists msg, ax_plot xs ys = Raise (ValueError msg).
Proof.
  intros H. unfold ax_plot. apply Nat.eqb_neq in H. rewrite H.
  eexists. reflexivity.
Qed.

(** What [plot] returns when a suggestion is asked for: the point of
    index [k] is marked on the axes, and its learning rate is returned
    only if [k] is not 0. *)
Lemma plot_suggestion (skip_start skip_end : Z) (show_lr : show_lr_arg)
    (st : state) (k : nat) :
  (0 <= skip_start)%Z -> (0 <= skip_end)%Z -> show_lr <> ShowOther ->
  let lrs := trim skip_start skip_end (history_lr st) in
  let losses := trim skip_start skip_end (history_loss st) in
  List.length lrs = List.length losses ->
  steepest losses = Ok (Some k) ->
  (k < List.length losses)%nat ->
  plot skip_start skip_end show_lr true st =
  Ok (mk_plot_output lrs losses (Some (nth k lrs 0, nth k losses 0))
        (match k with O => None | S _ => Some (nth k lrs 0) end)).
Proof.
  intros Hs He Hshow lrs losses Hsame Hsteep Hk2.
  assert (Hk1 : (k < List.length lrs)%nat) by (rewrite Hsame; exact Hk2).
  unfold plot.
  replace (skip_start <? 0)%Z with false by (symmetry; apply Z.ltb_ge; lia).
  replace (skip_end <? 0)%Z with false by (symmetry; apply Z.ltb_ge; lia).
  fold lrs losses. rewrite (ax_plot_same lrs losses Hsame), Hsteep. simpl rbind.
  assert (Hi1 : index lrs k = Ok (nth k lrs 0)).
  { unfold index. rewrite (nth_error_nth' lrs 0 Hk1). reflexivity. }
  assert (Hi2 : index losses k = Ok (nth k losses 0)).
  { unfold index. rewrite (nth_error_nth' losses 0 Hk2). reflexivity. }
  rewrite Hi1, Hi2. simpl rbind.
  destruct show_lr; try contradiction;
    (destruct k; [reflexivity|rewrite Hi1; reflexivity]).
Qed.

Lemma plot_too_few_points (skip_start skip_end : Z) (show_lr : show_lr_arg)
    (st : state) :
  (0 <= skip_start)%Z -> (0 <= skip_end)%Z -> show_lr <> ShowOther ->
  let lrs := trim skip_start skip_end (history_lr st) in
  let losses := trim skip_start skip_end (history_loss st) in
  List.length lrs = List.length losses ->
  (List.length losses < 2)%nat ->
  plot skip_start skip_end show_lr true st =
  Ok (mk_plot_output lrs losses None None).
Proof.
  intros Hs He Hshow lrs losses Hsame Hlen. unfold plot.
  replace (skip_start <? 0)%Z with false by (symmetry; apply Z.ltb_ge; lia).
  replace (skip_end <? 0)%Z with false by (symmetry; apply Z.ltb_ge; lia).
  fold lrs losses.
  rewrite (ax_plot_same lrs losses Hsame), (proj1 (steepest_spec losses) Hlen).
  simpl rbind.
  destruct show_lr; try contradiction; reflexivity.
Qed.

(** * Further properties *)

(** ** The learning rates a run records *)

(** Every learning rate in History is the head of [get_lr()] at its
    iteration, for the class the step mode selects. *)
Lemma history_lr_heads (start_lr : option lr_value) (e : R) (N : Z)
    (step_mode : string) (smooth_f diverge_th : R) (st : state) (i : nat) :
  let st' := fst (range_test start_lr e N step_mode smooth_f diverge_th st) in
  let bases := map lr (groups_at_start start_lr (optimizer st)) in
  (i < List.length (history_lr st'))%nat ->
  exists c b0 others rest,
    policy_of_mode step_mode = Some c /\
    (1 < N)%Z /\
    bases = b0 :: others /\
    get_lr (schedule_at c e N bases (Z.of_nat i)) = Ok (nth i (history_lr st') 0 :: rest).
Proof.
  intros st' bases Hi.
  pose proof (range_test_cases start_lr e N step_mode smooth_f diverge_th st) as Hc.
  cbv zeta in Hc.
  pose proof (range_test_setup_resets start_lr e N step_mode smooth_f st) as Hr.
  cbv zeta in Hr.
  destruct (range_test_setup start_lr e N step_mode smooth_f st) as [st1 [sched|err]].
  - destruct Hc as (c & Hmode & HN & _ & (Hh & _ & _)).
    destruct (Hh i Hi) as (rest & Hget). fold bases in Hget.
    pose proof (get_lr_length _ _ Hget) as Hlen. simpl in Hlen.
    destruct bases as [|b0 others] eqn:Hb; [discriminate|].
    exists c, b0, others, rest. repeat split; auto.
  - subst st'. rewrite Hc in Hi. simpl in Hi, Hr.
    destruct Hr as (Hr & _). rewrite Hr in Hi. simpl in Hi. lia.
Qed.

(** X3: in linear mode, the learning rate recorded at iteration [i] is
    [b0 + i / (num_iter - 1) * (end_lr - b0)], where [b0] is the rate of
    the first parameter group when the sweep starts. *)
Theorem linear_history_closed_form (start_lr : option lr_value) (e : R) (N : Z)
    (step_mode : string) (smooth_f diverge_th : R) (st : state) (i : nat) :
  policy_of_mode step_mode = Some LinearLR_class ->
  let st' := fst (range_test start_lr e N step_mode smooth_f diverge_th st) in
  (i < List.length (history_lr st'))%nat ->
  exists b0 others,
    map lr (groups_at_start start_lr (optimizer st)) = b0 :: others /\
    nth i (history_lr st') 0 = b0 + IZR (Z.of_nat i) / IZR (N - 1) * (e - b0).
Proof.
  intros Hmode st' Hi.
  destruct (history_lr_heads start_lr e N step_mode smooth_f diverge_th st i Hi)
    as (c & b0 & others & rest & Hc & HN & Hb & Hget).
  rewrite Hmode in Hc. injection Hc as <-.
  exists b0, others. split; [exact Hb|].
  rewrite Hb in Hget. unfold schedule_at in Hget.
  rewrite LinearLR_at in Hget by exact HN.
  simpl in Hget. injection Hget as Hv _. symmetry. exact Hv.
Qed.

(** X4: in exponential mode, when [end_lr] and the starting rate [b0] of the
    first parameter group are positive, the learning rate recorded at
    iteration [i] is [b0 * (end_lr / b0) ** (i / (num_iter - 1))]. *)
Theorem exponential_history_closed_form (start_lr : option lr_value) (e : R) (N : Z)
    (step_mode : string) (smooth_f diverge_th : R) (st : state) (i : nat) :
  policy_of_mode step_mode = Some ExponentialLR_class ->
  0 < e ->
  let st' := fst (range_test start_lr e N step_mode smooth_f diverge_th st) in
  (i < List.length (history_lr st'))%nat ->
  exists b0 others,
    map lr (groups_at_start start_lr (optimizer st)) = b0 :: others /\
    (0 < b0 ->
     nth i (history_lr st') 0 =
     b0 * Rpower (e / b0) (IZR (Z.of_nat i) / IZR (N - 1))).
Proof.
  intros Hmode He st' Hi.
  destruct (history_lr_heads start_lr e N step_mode smooth_f diverge_th st i Hi)
    as (c & b0 & others & rest & Hc & HN & Hb & Hget).
  rewrite Hmode in Hc. injection Hc as <-.
  exists b0, others. split; [exact Hb|]. intros Hb0.
  rewrite Hb in Hget. unfold schedule_at in Hget.
  apply get_lr_head in Hget.
  rewrite ExponentialLR_at in Hget by (try assumption; repeat constructor; exact Hb0).
  simpl in Hget. injection Hget as Hv. symmetry. exact Hv.
Qed.

(** X6: a linear run that returns does not restore the optimizer: with [K]
    records in History, every parameter group is left at the rate of
    iteration index [K], [b + K / (num_iter - 1) * (end_lr - b)], the rate
    the schedule would give to an iteration after the last one. *)
Theorem linear_run_leaves_scheduled_rates (start_lr : option lr_value) (e : R)
    (N : Z) (step_mode : string) (smooth_f diverge_th : R) (st st' : state) :
  policy_of_mode step_mode = Some LinearLR_class ->
  range_test start_lr e N step_mode smooth_f diverge_th st = (st', Ok tt) ->
  let bases := map lr (groups_at_start start_lr (optimizer st)) in
  let K := Z.of_nat (List.length (history_lr st')) in
  map lr (optimizer st') =
  map (fun b => b + IZR K / IZR (N - 1) * (e - b)) bases.
Proof.
  intros Hmode Hrun bases K.
  pose proof (range_test_cases start_lr e N step_mode smooth_f diverge_th st) as Hc.
  cbv zeta in Hc. rewrite Hrun in Hc.
  destruct (range_test_setup start_lr e N step_mode smooth_f st) as [st0 [sched|err]];
    [|discriminate].
  destruct Hc as (c & Hc & HN & Hlosses & (_ & _ & Hlr)).
  rewrite Hmode in Hc. injection Hc as <-.
  simpl in Hlr. destruct (Hlr eq_refl) as [Hlens Hopt].
  pose proof (returning_sweep_records _ _ _ _ _ _ _ Hlosses eq_refl
                ltac:(lia)) as HK.
  simpl in HK. specialize (Hopt ltac:(lia)).
  fold bases in Hopt. fold K in Hopt. unfold schedule_at in Hopt.
  rewrite LinearLR_at in Hopt by exact HN. injection Hopt as Hopt.
  symmetry. exact Hopt.
Qed.

(** ** The two series of History *)

Lemma range_test_series_lengths (start_lr : option lr_value) (e : R) (N : Z)
    (step_mode : string) (smooth_f diverge_th : R) (st : state) :
  let out := range_test start_lr e N step_mode smooth_f diverge_th st in
  let n_lr := List.length (history_lr (fst out)) in
  let n_loss := List.length (history_loss (fst out)) in
  (n_lr = n_loss \/ n_lr = S n_loss) /\
  (snd out = Ok tt -> n_lr = n_loss).
Proof.
  intros out. subst out. cbv zeta.
  pose proof (range_test_setup_resets start_lr e N step_mode smooth_f st) as Hr.
  cbv zeta in Hr.
  unfold range_test, bind.
  destruct (range_test_setup start_lr e N step_mode smooth_f st) as [st1 [sched|err]].
  - simpl in Hr. destruct Hr as (Hlr & Hloss & _).
    apply (for_range_rule smooth_f diverge_th (Z.to_nat N)
             (fun _ _ s => List.length (history_lr s) = List.length (history_loss s))
             (fun o =>
                (List.length (history_lr (fst o)) = List.length (history_loss (fst o)) \/
                 List.length (history_lr (fst o)) =
                 S (List.length (history_loss (fst o)))) /\
                (snd o = Ok tt ->
                 List.length (history_lr (fst o)) = List.length (history_loss (fst o)))))
      with (n := Z.to_nat N) (k := O); try reflexivity.
    + intros _ s Hs. simpl. auto.
    + intros k sch s _ Hs.
      pose proof (iteration_body_cases smooth_f diverge_th (Z.of_nat k) sch s) as Hb.
      destruct (iteration_body smooth_f diverge_th (Z.of_nat k) sch s)
        as [s' [[sch' brk]|err]].
      * destruct Hb as (w' & raw & lr0 & rest & lrs' & _ & _ & _ & Hs' & _).
        assert (Heq : List.length (history_lr s') = List.length (history_loss s'))
          by (subst s'; simpl; rewrite !length_app, Hs; reflexivity).
        destruct brk; simpl; auto.
      * destruct Hb as (_ & _ & Hl & _ & _ & Hlrs). simpl. rewrite Hl.
        split; [|discriminate].
        destruct Hlrs as [->|(lr0 & rest & _ & ->)]; [left; exact Hs|right].
        rewrite length_app, Hs. simpl. lia.
    + rewrite Hlr, Hloss. reflexivity.
  - simpl in *. destruct Hr as (-> & -> & _). simpl. split; [left; reflexivity|discriminate].
Qed.

(** X9: whatever the outcome of a run, History holds as many learning
    rates as losses, or one learning rate more (when the iteration failed
    after recording its rate); a run that returns holds as many. *)
Theorem history_series_aligned (start_lr : option lr_value) (e : R) (N : Z)
    (step_mode : string) (smooth_f diverge_th : R) (st : state) :
  let out := range_test start_lr e N step_mode smooth_f diverge_th st in
  let n_lr := List.length (history_lr (fst out)) in
  let n_loss := List.length (history_loss (fst out)) in
  (n_lr = n_loss \/ n_lr = S n_loss) /\
  (snd out = Ok tt -> n_lr = n_loss).
Proof. apply range_test_series_lengths. Qed.

(** ** The analyzer on the History of a run *)

Lemma trim_length {A} (skip_start skip_end : Z) (xs : list A) :
  (0 <= skip_start)%Z -> (0 <= skip_end)%Z ->
  List.length (trim skip_start skip_end xs) =
  (List.length xs - Z.to_nat skip_start - Z.to_nat skip_end)%nat.
Proof.
  intros Hs He. rewrite trim_drops by assumption.
  rewrite length_firstn, length_skipn. lia.
Qed.

(** [plot] returns on any History whose two series have the same
    length. *)
Lemma plot_returns (skip_start skip_end : Z) (show_lr : show_lr_arg)
    (suggest_lr : bool) (st : state) :
  (0 <= skip_start)%Z -> (0 <= skip_end)%Z -> show_lr <> ShowOther ->
  List.length (history_lr st) = List.length (history_loss st) ->
  exists out, plot skip_start skip_end show_lr suggest_lr st = Ok out.
Proof.
  intros Hs He Hshow Hlen.
  pose proof (trim_length skip_start skip_end (history_lr st) Hs He) as Hl1.
  pose proof (trim_length skip_start skip_end (history_loss st) Hs He) as Hl2.
  assert (Hsame : List.length (trim skip_start skip_end (history_lr st)) =
                  List.length (trim skip_start skip_end (history_loss st)))
    by (rewrite Hl1, Hl2, Hlen; reflexivity).
  destruct suggest_lr.
  - destruct (steepest_spec (trim skip_start skip_end (history_loss st)))
      as [Hfew Hmany].
    destruct (Nat.lt_ge_cases
                (List.length (trim skip_start skip_end (history_loss st))) 2)
      as [Hlt|Hge].
    + eexists. apply plot_too_few_points; assumption.
    + destruct (Hmany Hge) as (g & k & _ & Hg & Hsteep & Hk & _).
      eexists. apply (plot_suggestion skip_start skip_end show_lr st k);
        try assumption; lia.
  - unfold plot.
    replace (skip_start <? 0)%Z with false by (symmetry; apply Z.ltb_ge; lia).
    replace (skip_end <? 0)%Z with false by (symmetry; apply Z.ltb_ge; lia).
    rewrite (ax_plot_same _ _ Hsame).
    destruct show_lr; try contradiction; simpl; eauto.
Qed.

(** [plot] raises the error of [ax.plot] on a History with one learning
    rate more than losses, unless trimming leaves no learning rate. *)
Lemma plot_raises (skip_start skip_end : Z) (show_lr : show_lr_arg)
    (suggest_lr : bool) (st : state) :
  (0 <= skip_start)%Z -> (0 <= skip_end)%Z -> show_lr <> ShowOther ->
  List.length (history_lr st) = S (List.length (history_loss st)) ->
  (skip_start + skip_end <= Z.of_nat (List.length (history_loss st)))%Z ->
  exists msg,
    plot skip_start skip_end show_lr suggest_lr st = Raise (ValueError msg).
Proof.
  intros Hs He Hshow Hlen Hleft.
  pose proof (trim_length skip_start skip_end (history_lr st) Hs He) as Hl1.
  pose proof (trim_length skip_start skip_end (history_loss st) Hs He) as Hl2.
  destruct (ax_plot_differ (trim skip_start skip_end (history_lr st))
              (trim skip_start skip_end (history_loss st))) as [msg Hmsg].
  { rewrite Hl1, Hl2, Hlen. lia. }
  exists msg. unfold plot.
  replace (skip_start <? 0)%Z with false by (symmetry; apply Z.ltb_ge; lia).
  replace (skip_end <? 0)%Z with false by (symmetry; apply Z.ltb_ge; lia).
  rewrite Hmsg. destruct show_lr; try contradiction; reflexivity.
Qed.

(** X10: after a call of [range_test] that returns, [plot] with
    non-negative skips and a [show_lr] that is [None] or a float does not
    raise: the two series of History have the same length, so [ax.plot]
    accepts them, and the index of the suggestion is within both.  After a
    call that left one learning rate more than losses (an iteration failed
    once its rate was appended), [plot] raises the [ValueError] of
    [ax.plot] whenever trimming leaves a learning rate. *)
Theorem plot_after_range_test_returns (start_lr : option lr_value) (e : R) (N : Z)
    (step_mode : string) (smooth_f diverge_th : R) (st : state)
    (skip_start skip_end : Z) (show_lr : show_lr_arg) (suggest_lr : bool) :
  (0 <= skip_start)%Z -> (0 <= skip_end)%Z -> show_lr <> ShowOther ->
  let out := range_test start_lr e N step_mode smooth_f diverge_th st in
  (snd out = Ok tt ->
   exists drawn, plot skip_start skip_end show_lr suggest_lr (fst out) = Ok drawn) /\
  (List.length (history_lr (fst out)) = S (List.length (history_loss (fst out))) ->
   (skip_start + skip_end <= Z.of_nat (List.length (history_loss (fst out))))%Z ->
   exists msg,
     plot skip_start skip_end show_lr suggest_lr (fst out) = Raise (ValueError msg)).
Proof.
  intros Hs He Hshow out. split.
  - intros Hok. apply plot_returns; try assumption.
    exact (proj2 (range_test_series_lengths start_lr e N step_mode smooth_f
                    diverge_th st) Hok).
  - intros Hlen Hleft. apply plot_raises; assumption.
Qed.

(** X11: when History has at most [skip_start + skip_end + 1] records, its
    two series of the same length, fewer than two points are left after
    trimming, and [plot] draws them and returns without a suggestion and
    without an error; with the default skips of 10 and 5, that is any
    History of at most 16 records. *)
Theorem plot_short_history_no_suggestion (skip_start skip_end : Z)
    (show_lr : show_lr_arg) (st : state) :
  (0 <= skip_start)%Z -> (0 <= skip_end)%Z -> show_lr <> ShowOther ->
  List.length (history_lr st) = List.length (history_loss st) ->
  (Z.of_nat (List.length (history_loss st)) <= skip_start + skip_end + 1)%Z ->
  plot skip_start skip_end show_lr true st =
  Ok (mk_plot_output (trim skip_start skip_end (history_lr st))
        (trim skip_start skip_end (history_loss st)) None None).
Proof.
  intros Hs He Hshow Hsame Hlen. apply plot_too_few_points; try assumption.
  - rewrite !trim_length by assumption. rewrite Hsame. reflexivity.
  - rewrite trim_length by assumption. lia.
Qed.

(** ** Writing learning rates and the schedule marker *)

(** X12: [_set_learning_rate] itself has no gate on the value: a scalar, 0
    included, is written into every parameter group; a list of the right
    length is written group by group; in both cases the ["initial_lr"]
    entries and the rest of the finder are untouched.  A list of another
    length raises and writes nothing. *)
Theorem set_learning_rate_writes_all_groups (st : state) :
  (forall x,
     _set_learning_rate (Scalar x) st =
     (set_optimizer st (assign_lrs (optimizer st)
                          (repeat x (List.length (optimizer st)))), Ok tt) /\
     Forall (fun g => lr g = x)
       (assign_lrs (optimizer st) (repeat x (List.length (optimizer st))))) /\
  (forall xs,
     List.length xs = List.length (optimizer st) ->
     _set_learning_rate (PerGroup xs) st =
     (set_optimizer st (assign_lrs (optimizer st) xs), Ok tt) /\
     map lr (assign_lrs (optimizer st) xs) = xs) /\
  (forall xs,
     List.length xs <> List.length (optimizer st) ->
     _set_learning_rate (PerGroup xs) st =
     (st, Raise (ValueError
        "Length of `new_lrs` is not equal to the number of parameter groups in the given optimizer"))) /\
  (forall lrs,
     map initial_lr (assign_lrs (optimizer st) lrs) = map initial_lr (optimizer st) /\
     List.length (assign_lrs (optimizer st) lrs) = List.length (optimizer st)).
Proof.
  split; [|split; [|split]].
  - intros x. unfold _set_learning_rate, bind, gets, modify, raise.
    rewrite repeat_length, Nat.eqb_refl. simpl negb. cbv iota.
    split; [reflexivity|].
    assert (H : map lr (assign_lrs (optimizer st)
                          (repeat x (List.length (optimizer st)))) =
                repeat x (List.length (optimizer st)))
      by (apply assign_lrs_lr, repeat_length).
    apply Forall_forall. intros g Hg.
    apply (in_map lr) in Hg. rewrite H in Hg.
    apply repeat_spec in Hg. exact Hg.
  - intros xs Hlen. unfold _set_learning_rate, bind, gets, modify, raise.
    rewrite Hlen, Nat.eqb_refl. simpl negb. cbv iota.
    split; [reflexivity|apply assign_lrs_lr; exact Hlen].
  - intros xs Hlen. unfold _set_learning_rate, bind, gets, modify, raise.
    replace (List.length xs =? List.length (optimizer st))%nat with false
      by (symmetry; apply Nat.eqb_neq; exact Hlen).
    reflexivity.
  - intros lrs. split; [apply assign_lrs_initial_lr|apply assign_lrs_length].
Qed.

Lemma groups_at_start_length (start_lr : option lr_value) (groups : list param_group) :
  List.length (groups_at_start start_lr groups) = List.length groups.
Proof.
  unfold groups_at_start. destruct start_lr as [v|]; [|reflexivity].
  destruct (truthy v); [apply assign_lrs_length|reflexivity].
Qed.

Lemma unmarked_existsb (groups : list param_group) :
  existsb has_initial_lr groups = false <->
  Forall (fun g => initial_lr g = None) groups.
Proof.
  induction groups as [|g gs IH]; simpl.
  - split; [constructor|reflexivity].
  - unfold has_initial_lr at 1. split.
    + intros H. destruct (initial_lr g) eqn:Hg; [discriminate|].
      constructor; [exact Hg|apply IH; exact H].
    + intros H. inversion H as [|? ? Hg Hgs]; subst. rewrite Hg. apply IH, Hgs.
Qed.

(** Once the checks before the schedule have passed, every way the call
    can end leaves the base rates under ["initial_lr"]. *)
Lemma constructed_run_marks (start_lr : option lr_value) (e : R) (N : Z)
    (step_mode : string) (smooth_f diverge_th : R) (st : state) (c : policy) :
  existsb has_initial_lr (optimizer st) = false ->
  fits start_lr (optimizer st) = true ->
  policy_of_mode step_mode = Some c ->
  (1 < N)%Z ->
  map initial_lr
    (optimizer (fst (range_test start_lr e N step_mode smooth_f diverge_th st))) =
  map (fun g => Some (lr g)) (groups_at_start start_lr (optimizer st)).
Proof.
  intros Hmark Hfits Hmode HN.
  pose proof (range_test_cases start_lr e N step_mode smooth_f diverge_th st) as Hc.
  cbv zeta in Hc.
  pose proof (range_test_setup_spec start_lr e N step_mode smooth_f st) as Hs.
  cbv zeta in Hs.
  rewrite check_groups_result, Hmark, Hfits, Hmode in Hs. simpl negb in Hs.
  cbv iota in Hs.
  replace (N <=? 1)%Z with false in Hs by (symmetry; apply Z.leb_gt; exact HN).
  assert (Hun : Forall (fun g => initial_lr g = None)
                  (groups_at_start start_lr (optimizer st)))
    by (apply groups_at_start_unmarked, unmarked_existsb, Hmark).
  destruct (range_test_setup start_lr e N step_mode smooth_f st) as [st1 [sched|err]].
  - destruct Hc as (c' & _ & _ & _ & (_ & Hmarks & _)). exact Hmarks.
  - rewrite Hc. simpl.
    destruct (get_lr _) as [lrs|err'].
    + destruct (float_lt smooth_f 0 || float_ge smooth_f 1); [|discriminate].
      injection Hs as -> _. simpl.
      rewrite assign_lrs_initial_lr. apply setdefault_marks, Hun.
    + injection Hs as -> _. simpl. apply setdefault_marks, Hun.
Qed.

(** X13: a call of [range_test] that passes the checks placed before the
    schedule (no marker, a fitting [start_lr], a known step mode,
    [num_iter > 1]) leaves ["initial_lr"] on every parameter group however
    it ends, be it with the [smooth_f] error, an error of an executor, or a
    return.  Every later call of [range_test] on that finder, and every new
    [LRFinder] on that optimizer, raises
    "Optimizer already has a scheduler attached to it". *)
Theorem constructed_run_blocks_next (start_lr : option lr_value) (e : R) (N : Z)
    (step_mode : string) (smooth_f diverge_th : R) (st : state) (c : policy) :
  optimizer st <> [] ->
  existsb has_initial_lr (optimizer st) = false ->
  fits start_lr (optimizer st) = true ->
  policy_of_mode step_mode = Some c ->
  (1 < N)%Z ->
  let st' := fst (range_test start_lr e N step_mode smooth_f diverge_th st) in
  Forall (fun g => has_initial_lr g = true) (optimizer st') /\
  (forall start_lr' e' N' step_mode' smooth_f' diverge_th',
     range_test start_lr' e' N' step_mode' smooth_f' diverge_th' st' =
     (reset_results st',
      Raise (RuntimeError "Optimizer already has a scheduler attached to it"))) /\
  (forall train val w,
     snd (LRFinder_init (optimizer st') train val w) =
     Raise (RuntimeError "Optimizer already has a scheduler attached to it")).
Proof.
  intros Hne Hmark Hfits Hmode HN st'.
  pose proof (constructed_run_marks start_lr e N step_mode smooth_f diverge_th st c
                Hmark Hfits Hmode HN) as Hmarks.
  fold st' in Hmarks.
  destruct (marks_all_some _ _ Hmarks) as [Hall Hlen].
  rewrite groups_at_start_length in Hlen.
  assert (Hex : existsb has_initial_lr (optimizer st') = true).
  { destruct (optimizer st') as [|g gs].
    - destruct (optimizer st); [contradiction|discriminate].
    - inversion Hall as [|? ? Hg _]. simpl. rewrite Hg. reflexivity. }
  split; [exact Hall|]. split.
  - intros. apply range_test_marked. exact Hex.
  - intros train val w. unfold LRFinder_init.
    rewrite check_groups_result, Hex. reflexivity.
Qed.

(** X14: the errors raised before the schedule is constructed (a [start_lr]
    list of the wrong length, an unknown step mode, [num_iter <= 1]) leave
    no ["initial_lr"] on an optimizer that had none, so the marker check
    of a corrected call passes. *)
Theorem early_errors_leave_no_marker (start_lr : option lr_value) (e : R) (N : Z)
    (step_mode : string) (smooth_f diverge_th : R) (st : state) :
  existsb has_initial_lr (optimizer st) = false ->
  fits start_lr (optimizer st) = false \/
  policy_of_mode step_mode = None \/ (N <= 1)%Z ->
  let out := range_test start_lr e N step_mode smooth_f diverge_th st in
  (exists msg, snd out = Raise (ValueError msg)) /\
  existsb has_initial_lr (optimizer (fst out)) = false.
Proof.
  intros Hmark Hbad out. subst out. unfold range_test, bind.
  rewrite range_test_setup_spec. cbv zeta.
  rewrite check_groups_result, Hmark.
  assert (Hun : existsb has_initial_lr (groups_at_start start_lr (optimizer st)) = false)
    by (apply unmarked_existsb, groups_at_start_unmarked, unmarked_existsb, Hmark).
  destruct (fits start_lr (optimizer st)) eqn:Hfits; simpl negb; cbv iota.
  2:{ simpl. split; [eauto|exact Hmark]. }
  destruct (policy_of_mode step_mode) as [c|] eqn:Hmode.
  2:{ simpl. split; [eauto|exact Hun]. }
  destruct (N <=? 1)%Z eqn:HN.
  { simpl. split; [eauto|exact Hun]. }
  apply Z.leb_gt in HN.
  destruct Hbad as [H|[H|H]]; try discriminate; lia.
Qed.

Lemma exponential_zero_base (e r : R) (bases : list R) :
  0 < e ->
  Forall (fun b => 0 <= b) bases ->
  Exists (fun b => b = 0) bases ->
  comprehension
    (fun base_lr =>
       rbind (truediv e base_lr) (fun q =>
       rbind (float_pow q r) (fun p => Ok (base_lr * p)))) bases =
  Raise ZeroDivisionError.
Proof.
  intros He Hnn Hz. induction bases as [|b bs IH]; [inversion Hz|].
  inversion Hnn as [|? ? Hb Hbs]; subst.
  simpl. unfold truediv at 1. destruct (Req_dec_T b 0) as [Hb0|Hb0]; [reflexivity|].
  simpl. rewrite float_pow_pos by (apply Rdiv_lt_0_compat; lra). simpl.
  inversion Hz as [? ? Hhead|? ? Htail]; subst; [contradiction|].
  rewrite (IH Hbs Htail). reflexivity.
Qed.

(** X15: in exponential mode with a positive [end_lr], if the rates the
    sweep would start from are non-negative and one of them is 0,
    [range_test] raises [ZeroDivisionError] while the schedule is
    constructed: nothing is recorded and no executor runs. *)
Theorem exponential_zero_rate_raises (start_lr : option lr_value) (e : R) (N : Z)
    (step_mode : string) (smooth_f diverge_th : R) (st : state) :
  existsb has_initial_lr (optimizer st) = false ->
  fits start_lr (optimizer st) = true ->
  policy_of_mode step_mode = Some ExponentialLR_class ->
  (1 < N)%Z -> 0 < e ->
  Forall (fun g => 0 <= lr g) (groups_at_start start_lr (optimizer st)) ->
  Exists (fun g => lr g = 0) (groups_at_start start_lr (optimizer st)) ->
  let out := range_test start_lr e N step_mode smooth_f diverge_th st in
  snd out = Raise ZeroDivisionError /\
  history_lr (fst out) = [] /\ history_loss (fst out) = [] /\
  world (fst out) = world st.
Proof.
  intros Hmark Hfits Hmode HN He Hnn Hz out. subst out. unfold range_test, bind.
  rewrite range_test_setup_spec. cbv zeta.
  rewrite check_groups_result, Hmark, Hfits, Hmode. simpl negb. cbv iota.
  replace (N <=? 1)%Z with false by (symmetry; apply Z.leb_gt; exact HN).
  assert (Hget : get_lr (mk_scheduler ExponentialLR_class e N
                          (map lr (groups_at_start start_lr (optimizer st))) 0) =
                 Raise ZeroDivisionError).
  { unfold get_lr, ExponentialLR_get_lr, ratio.
    cbn [cls end_lr num_iter base_lrs last_epoch].
    assert (Hd : IZR (N - 1) <> 0) by (apply not_0_IZR; lia).
    destruct legacy; rewrite truediv_ok by exact Hd; cbn [rbind];
      (apply exponential_zero_base;
       [exact He
       |apply Forall_map; exact Hnn
       |apply Exists_map; exact Hz]). }
  rewrite Hget. destruct st; simpl. repeat split; reflexivity.
Qed.

(** ** The executors *)

Lemma record_iteration_keeps_world (smooth_f diverge_th : R) (it : Z)
    (sched : scheduler) (raw : R) (st : state) :
  world (fst (record_iteration smooth_f diverge_th it sched raw st)) = world st.
Proof.
  destruct st as [train val opt hlr hloss best w].
  unfold record_iteration, bind, gets, lift,
    modify, ret, raise, LRScheduler_step, assign_from_get_lr, track_loss,
    bind, gets, lift, modify, ret, raise.
  cbn.
  destruct (get_lr sched) as [[|lr0 rest]|err]; cbn; try reflexivity.
  destruct (get_lr (with_last_epoch sched (last_epoch sched + 1))) as [lrs'|err];
    cbn; try reflexivity.
  destruct (it =? 0)%Z; cbn.
  - destruct (float_gt raw (diverge_th * raw)); reflexivity.
  - destruct (float_gt smooth_f 0); cbn;
      [destruct (last_item hloss) as [prev|err]; cbn; try reflexivity|];
      (destruct best as [b|]; cbn; try reflexivity;
       match goal with
       | |- context [float_lt ?a ?b] => destruct (float_lt a b); cbn
       end;
       match goal with
       | |- context [float_gt ?a ?b] => destruct (float_gt a b); cbn
       end; reflexivity).
Qed.

(** X16: with a validation executor, the training executor still runs
    first, on the world as it is, and the validation executor runs on the
    world the training executor leaves; an iteration that returns records
    the loss of the validation executor, and the loss of the training
    executor is discarded.  If the iteration fails afterwards, no loss is
    recorded. *)
Theorem validation_loss_is_recorded (smooth_f diverge_th : R) (it : Z)
    (sched : scheduler) (st : state) (v : Step) (w1 w2 : W) (l_train l_val : R) :
  val_step st = Some v ->
  step (train_step st) (world st) = (w1, Ok l_train) ->
  step v w1 = (w2, Ok l_val) ->
  let out := iteration_body smooth_f diverge_th it sched st in
  world (fst out) = w2 /\
  match snd out with
  | Ok _ =>
      history_loss (fst out) =
      history_loss st ++ [recorded_loss smooth_f it l_val (history_loss st)]
  | Raise _ => history_loss (fst out) = history_loss st
  end.
Proof.
  intros Hval Htrain Hv out. subst out.
  assert (Hone : one_loss (train_step st) (val_step st) (world st) = (w2, Ok l_val)).
  { unfold one_loss. rewrite Htrain, Hval. exact Hv. }
  rewrite iteration_body_unfold, Hone.
  pose proof (record_iteration_keeps_world smooth_f diverge_th it sched l_val
                (set_world st w2)) as Hw.
  pose proof (record_iteration_cases smooth_f diverge_th it sched l_val
                (set_world st w2)) as Hc.
  destruct (record_iteration smooth_f diverge_th it sched l_val (set_world st w2))
    as [st' [res|err]]; simpl in *.
  - split; [exact Hw|].
    destruct Hc as (lr0 & rest & lrs' & _ & _ & Hst & _).
    subst st'. reflexivity.
  - split; [exact Hw|]. destruct Hc as (_ & _ & Hl & _). exact Hl.
Qed.

Lemma restartable_step_returns (s : Step) :
  (forall w w1, _step s w = (w1, Raise StopIteration) ->
     exists w2 w3 l, _reset s w1 = (w2, Ok tt) /\ _step s w2 = (w3, Ok l)) ->
  (forall w w1 err, _step s w = (w1, Raise err) -> err = StopIteration) ->
  forall w, exists w' l, step s w = (w', Ok l).
Proof.
  intros Hrestart Honly w. unfold step.
  destruct (_step s w) as [w1 [l|err]] eqn:Hstep; [eauto|].
  pose proof (Honly w w1 err Hstep) as ->.
  destruct (Hrestart w w1 Hstep) as (w2 & w3 & l & Hreset & Hagain).
  rewrite Hreset, Hagain. eauto.
Qed.

Lemma returning_executor_losses (train : Step) :
  (forall w, exists w' l, step train w = (w', Ok l)) ->
  forall n w, List.length (raw_losses train None n w) = n.
Proof.
  intros Hstep. induction n as [|n IH]; intros w; [reflexivity|].
  simpl. unfold one_loss. destruct (Hstep w) as (w' & l & ->).
  simpl. rewrite IH. reflexivity.
Qed.

(** A linear run with valid arguments returns when its executors deliver
    [num_iter] losses. *)
Lemma linear_run_returns (start_lr : option lr_value) (e : R) (N : Z)
    (step_mode : string) (smooth_f diverge_th : R) (st : state) :
  optimizer st <> [] ->
  existsb has_initial_lr (optimizer st) = false ->
  fits start_lr (optimizer st) = true ->
  policy_of_mode step_mode = Some LinearLR_class ->
  (1 < N)%Z ->
  0 <= smooth_f < 1 ->
  List.length (raw_losses (train_step st) (val_step st) (Z.to_nat N) (world st)) =
  Z.to_nat N ->
  exists st', range_test start_lr e N step_mode smooth_f diverge_th st = (st', Ok tt).
Proof.
  intros Hne Hmark Hfits Hmode HN Hf Hraws.
  apply (range_test_returns start_lr e N step_mode smooth_f diverge_th st
           LinearLR_class); try assumption.
  intros i Hi.
  destruct (map lr (groups_at_start start_lr (optimizer st))) as [|b0 others] eqn:Hb.
  - apply (f_equal (@List.length R)) in Hb.
    rewrite length_map, groups_at_start_length in Hb.
    destruct (optimizer st); [contradiction|discriminate].
  - apply linear_schedule_yields. exact HN.
Qed.

(** X17: [Step.step] resets and retries once on [StopIteration].  So when
    every exhaustion of the training executor is followed by a reset after
    which [_step] returns a loss, and [_step] raises nothing else, [step]
    always returns a loss, and a linear [range_test] with valid arguments
    returns whatever [num_iter] is, however short the data source. *)
Theorem range_test_outlasts_data (start_lr : option lr_value) (e : R) (N : Z)
    (step_mode : string) (smooth_f diverge_th : R) (st : state) :
  (forall w w1, _step (train_step st) w = (w1, Raise StopIteration) ->
     exists w2 w3 l,
       _reset (train_step st) w1 = (w2, Ok tt) /\
       _step (train_step st) w2 = (w3, Ok l)) ->
  (forall w w1 err, _step (train_step st) w = (w1, Raise err) -> err = StopIteration) ->
  val_step st = None ->
  optimizer st <> [] ->
  existsb has_initial_lr (optimizer st) = false ->
  fits start_lr (optimizer st) = true ->
  policy_of_mode step_mode = Some LinearLR_class ->
  (1 < N)%Z ->
  0 <= smooth_f < 1 ->
  (forall w, exists w' l, step (train_step st) w = (w', Ok l)) /\
  exists st', range_test start_lr e N step_mode smooth_f diverge_th st = (st', Ok tt).
Proof.
  intros Hrestart Honly Hval Hne Hmark Hfits Hmode HN Hf.
  pose proof (restartable_step_returns (train_step st) Hrestart Honly) as Hstep.
  split; [exact Hstep|].
  apply linear_run_returns; try assumption.
  rewrite Hval. apply returning_executor_losses. exact Hstep.
Qed.

(** X18: a linear run with valid arguments, on an optimizer with at least
    one parameter group and no marker, returns when the executors deliver
    [num_iter] losses, and History then holds between 1 and [num_iter]
    records. *)
Theorem linear_range_test_returns (start_lr : option lr_value) (e : R) (N : Z)
    (step_mode : string) (smooth_f diverge_th : R) (st : state) :
  optimizer st <> [] ->
  existsb has_initial_lr (optimizer st) = false ->
  fits start_lr (optimizer st) = true ->
  policy_of_mode step_mode = Some LinearLR_class ->
  (1 < N)%Z ->
  0 <= smooth_f < 1 ->
  List.length (raw_losses (train_step st) (val_step st) (Z.to_nat N) (world st)) =
  Z.to_nat N ->
  exists st',
    range_test start_lr e N step_mode smooth_f diverge_th st = (st', Ok tt) /\
    (1 <= Z.of_nat (List.length (history_loss st')) <= N)%Z.
Proof.
  intros Hne Hmark Hfits Hmode HN Hf Hraws.
  destruct (linear_run_returns start_lr e N step_mode smooth_f diverge_th st
              Hne Hmark Hfits Hmode HN Hf Hraws) as [st' Hrun].
  exists st'. split; [exact Hrun|].
  pose proof (range_test_cases start_lr e N step_mode smooth_f diverge_th st) as Hc.
  cbv zeta in Hc. rewrite Hrun in Hc.
  destruct (range_test_setup start_lr e N step_mode smooth_f st) as [st0 [sched|err]];
    [|discriminate].
  destruct Hc as (c & _ & _ & Hlosses & _).
  pose proof (returning_sweep_records _ _ _ _ _ _ _ Hlosses eq_refl
                ltac:(lia)) as HK.
  destruct Hlosses as (K & HKT & Hlen & Hh & _).
  simpl in *. rewrite Hh, recorded_length, Hlen in *. lia.
Qed.

(** ** A failing executor *)

Lemma raw_losses_firstn (train : Step) (val : option Step) (n m : nat) (w : W) :
  List.length (raw_losses train val n w) = n -> (m <= n)%nat ->
  raw_losses train val m w = firstn m (raw_losses train val n w).
Proof.
  revert m w. induction n as [|n IH]; intros m w Hlen Hm.
  - replace m with O by lia. reflexivity.
  - destruct m as [|m]; [reflexivity|].
    simpl in *. destruct (one_loss train val w) as [w1 [l|err]]; [|discriminate].
    simpl in *. injection Hlen as Hlen. rewrite (IH m w1 Hlen) by lia. reflexivity.
Qed.

Lemma recorded_app (f : R) (xs ys : list R) :
  exists zs, recorded f (xs ++ ys) = recorded f xs ++ zs.
Proof.
  induction ys as [|y ys IH] using rev_ind.
  - exists []. rewrite !app_nil_r. reflexivity.
  - destruct IH as (zs & Hzs). rewrite app_assoc, recorded_snoc, Hzs.
    eexists. rewrite <- app_assoc. reflexivity.
Qed.

Lemma recorded_firstn (f : R) (raws : list R) (m : nat) :
  recorded f (firstn m raws) = firstn m (recorded f raws).
Proof.
  destruct (Nat.le_gt_cases (List.length raws) m) as [Hbig|Hsmall].
  - rewrite !firstn_all2 by (rewrite ?recorded_length; lia). reflexivity.
  - destruct (recorded_app f (firstn m raws) (skipn m raws)) as (zs & Hzs).
    rewrite firstn_skipn in Hzs. rewrite Hzs.
    assert (Hlen : List.length (recorded f (firstn m raws)) = m)
      by (rewrite recorded_length, length_firstn; lia).
    rewrite firstn_app, Hlen, Nat.sub_diag.
    rewrite (firstn_all2 (recorded f (firstn m raws))) by lia.
    simpl. rewrite app_nil_r. reflexivity.
Qed.

Lemma diverges_firstn (th : R) (losses : list R) (m j : nat) :
  (j < m)%nat -> diverges th (firstn m losses) j = diverges th losses j.
Proof.
  intros Hj. unfold diverges.
  rewrite firstn_firstn. replace (Nat.min (S j) m) with (S j) by lia.
  rewrite nth_firstn.
  replace (j <? m)%nat with true by (symmetry; apply Nat.ltb_lt; exact Hj).
  reflexivity.
Qed.

(** A loop whose executors raise at iteration [k0], after [k0] iterations
    without divergence, raises there with [k0] records. *)
Lemma for_range_raises (c : policy) (e : R) (N : Z) (bases : list R)
    (train : Step) (val : option Step) (w0 wf : W) (smooth_f diverge_th : R)
    (T k0 : nat) (err : exn) (st : state) :
  (forall i, (i <= k0)%nat ->
     exists lr0 rest, get_lr (schedule_at c e N bases (Z.of_nat i)) = Ok (lr0 :: rest)) ->
  List.length (raw_losses train val k0 w0) = k0 ->
  one_loss train val (world_after train val k0 w0) = (wf, Raise err) ->
  (forall j, (j < k0)%nat ->
     diverges diverge_th (recorded smooth_f (raw_losses train val k0 w0)) j = false) ->
  (k0 < T)%nat ->
  train_step st = train -> val_step st = val -> world st = w0 ->
  history_loss st = [] -> history_lr st = [] -> best_loss st = None ->
  let out := for_range smooth_f diverge_th T 0 (schedule_at c e N bases 0) st in
  snd out = Raise err /\
  history_loss (fst out) = recorded smooth_f (raw_losses train val k0 w0) /\
  List.length (history_lr (fst out)) = k0 /\
  world (fst out) = wf.
Proof.
  intros Hsched Hraws Hfail Hnodiv HT Ht Hv Hw Hloss Hlr Hbest.
  apply (for_range_rule smooth_f diverge_th T
           (fun k sched s =>
              (k <= k0)%nat /\
              sched = schedule_at c e N bases (Z.of_nat k) /\
              train_step s = train /\ val_step s = val /\
              world s = world_after train val k w0 /\
              history_loss s = recorded smooth_f (raw_losses train val k w0) /\
              best_loss s = minimum (history_loss s) /\
              List.length (history_lr s) = k)
           (fun out =>
              snd out = Raise err /\
              history_loss (fst out) = recorded smooth_f (raw_losses train val k0 w0) /\
              List.length (history_lr (fst out)) = k0 /\
              world (fst out) = wf))
    with (n := T) (k := O); try reflexivity.
  - intros sched s (Hk & _). lia.
  - intros k sched s Hk (Hk0 & Hs & Ht1 & Hv1 & Hw1 & Hh & Hb & Hl).
    rewrite iteration_body_unfold, Ht1, Hv1, Hw1.
    destruct (Nat.eq_dec k k0) as [->|Hne].
    + rewrite Hfail. simpl. repeat split; auto.
    + destruct (raw_losses_prefix train val k0 k w0 Hraws ltac:(lia))
        as [Hlenk (w' & raw & Hone)].
      destruct (raw_losses_snoc train val k w0 w' raw Hlenk Hone) as [Hraws' Hworld].
      rewrite Hone.
      destruct (Hsched k ltac:(lia)) as (lr0 & rest & Hget).
      destruct (Hsched (S k) ltac:(lia)) as (lr1 & rest1 & Hget').
      rewrite <- schedule_at_next, <- Hs in Hget'. rewrite <- Hs in Hget.
      assert (HlenH : List.length (history_loss s) = k)
        by (rewrite Hh, recorded_length; exact Hlenk).
      assert (Hpre : Z.of_nat k = 0%Z \/
                     (history_loss (set_world s w') <> [] /\
                      best_loss (set_world s w') <> None)).
      { destruct k as [|k]; [left; reflexivity|right]. simpl.
        destruct (history_loss s) as [|h hs]; [discriminate|].
        split; [discriminate|]. rewrite Hb. discriminate. }
      destruct (record_iteration_returns smooth_f diverge_th (Z.of_nat k) sched raw
                  (set_world s w') lr0 rest (lr1 :: rest1) Hget Hget' Hpre)
        as (s' & out & Hrun).
      pose proof (record_iteration_cases smooth_f diverge_th (Z.of_nat k) sched raw
                    (set_world s w')) as Hc.
      rewrite Hrun in *.
      destruct Hc as (lr0' & rest' & lrs' & _ & _ & Hst & Hout).
      simpl in Hst.
      set (loss := recorded_loss smooth_f (Z.of_nat k) raw (history_loss s)) in *.
      assert (Hh' : history_loss s' = recorded smooth_f (raw_losses train val (S k) w0)).
      { rewrite Hraws', recorded_snoc, <- Hh, HlenH. subst s'. reflexivity. }
      assert (Hb' : best_loss s' = minimum (history_loss s')).
      { subst s'. simpl. rewrite minimum_snoc, HlenH, Hb. reflexivity. }
      assert (Hbrk : snd out = false).
      { assert (Hdiv : diverges diverge_th (history_loss s') k = snd out).
        { rewrite Hout. subst s'. simpl. rewrite <- HlenH at 1.
          rewrite diverges_app_new, HlenH, <- Hb. reflexivity. }
        rewrite <- Hdiv, Hh'.
        rewrite (raw_losses_firstn train val k0 (S k) w0 Hraws) by lia.
        rewrite recorded_firstn, diverges_firstn by lia.
        apply Hnodiv. lia. }
      destruct out as [sched' brk]. simpl in Hbrk. subst brk.
      injection Hout as -> _.
      assert (Hlr' : List.length (history_lr s') = S k)
        by (subst s'; simpl; rewrite length_app, Hl; simpl; lia).
      assert (Hw' : world s' = world_after train val (S k) w0)
        by (subst s'; simpl; symmetry; exact Hworld).
      assert (Ht' : train_step s' = train) by (subst s'; exact Ht1).
      assert (Hv' : val_step s' = val) by (subst s'; exact Hv1).
      split; [lia|]. split; [rewrite Hs; apply schedule_at_next|].
      repeat split; assumption.
  - rewrite Hloss, Hlr, Hbest. repeat split; auto; lia.
Qed.

(** X19: when the executors deliver [k0 < num_iter] losses, none of which
    makes the sweep stop, and then raise (the retry of [Step.step]
    included), a linear [range_test] with valid arguments raises that same
    exception; History keeps the [k0] records made so far, and no further
    executor call is made. *)
Theorem executor_error_propagates (start_lr : option lr_value) (e : R) (N : Z)
    (step_mode : string) (smooth_f diverge_th : R) (st : state)
    (k0 : nat) (wf : W) (err : exn) :
  optimizer st <> [] ->
  existsb has_initial_lr (optimizer st) = false ->
  fits start_lr (optimizer st) = true ->
  policy_of_mode step_mode = Some LinearLR_class ->
  (1 < N)%Z ->
  0 <= smooth_f < 1 ->
  (k0 < Z.to_nat N)%nat ->
  List.length (raw_losses (train_step st) (val_step st) k0 (world st)) = k0 ->
  one_loss (train_step st) (val_step st)
    (world_after (train_step st) (val_step st) k0 (world st)) = (wf, Raise err) ->
  (forall j, (j < k0)%nat ->
     diverges diverge_th
       (recorded smooth_f (raw_losses (train_step st) (val_step st) k0 (world st))) j =
     false) ->
  let out := range_test start_lr e N step_mode smooth_f diverge_th st in
  snd out = Raise err /\
  history_loss (fst out) =
  recorded smooth_f (raw_losses (train_step st) (val_step st) k0 (world st)) /\
  List.length (history_lr (fst out)) = k0 /\
  world (fst out) = wf.
Proof.
  intros Hne Hmark Hfits Hmode HN Hf Hk0 Hraws Hfail Hnodiv out. subst out.
  unfold range_test, bind. rewrite range_test_setup_spec. cbv zeta.
  rewrite check_groups_result, Hmark, Hfits, Hmode. simpl negb. cbv iota.
  replace (N <=? 1)%Z with false by (symmetry; apply Z.leb_gt; exact HN).
  set (bases := map lr (groups_at_start start_lr (optimizer st))) in *.
  assert (Hb : exists b0 others, bases = b0 :: others).
  { destruct bases as [|b0 others] eqn:Hb; [|eauto].
    apply (f_equal (@List.length R)) in Hb. subst bases.
    rewrite length_map, groups_at_start_length in Hb.
    destruct (optimizer st); [contradiction|discriminate]. }
  destruct Hb as (b0 & others & Hb).
  change (mk_scheduler LinearLR_class e N bases 0) with
    (with_last_epoch (schedule_at LinearLR_class e N bases 0) 0).
  assert (Hfirst : exists lrs,
             get_lr (with_last_epoch (schedule_at LinearLR_class e N bases 0) 0) =
             Ok lrs).
  { destruct (linear_schedule_yields e N b0 others (if legacy then 1 else 0)%Z HN)
      as (lr0 & rest & H).
    exists (lr0 :: rest). rewrite <- Hb in H. rewrite <- H.
    unfold schedule_at, with_last_epoch, epoch_of_iteration; simpl.
    destruct legacy; reflexivity. }
  destruct Hfirst as (lrs & ->).
  replace (float_lt smooth_f 0 || float_ge smooth_f 1) with false.
  2:{ symmetry. apply not_true_is_false. intros H. apply float_checks in H. lra. }
  apply (for_range_raises LinearLR_class e N bases (train_step st) (val_step st)
           (world st) wf smooth_f diverge_th (Z.to_nat N) k0 err);
    try assumption; try (destruct st; reflexivity).
  intros i Hi. rewrite Hb. apply linear_schedule_yields. exact HN.
Qed.

(** ** The rate in use and the rate recorded *)

(** When the parameter groups hold the rates of the schedule before an
    iteration, the iteration records the rate the first group holds, and
    the groups hold the rates of the advanced schedule after it. *)
Lemma iteration_keeps_rates_in_step (smooth_f diverge_th : R) (it : Z)
    (sched sched' : scheduler) (st st' : state) (brk : bool) :
  get_lr sched = Ok (map lr (optimizer st)) ->
  iteration_body smooth_f diverge_th it sched st = (st', Ok (sched', brk)) ->
  (exists g gs,
     optimizer st = g :: gs /\ history_lr st' = history_lr st ++ [lr g]) /\
  get_lr sched' = Ok (map lr (optimizer st')).
Proof.
  intros Hheld Hrun.
  pose proof (iteration_body_cases smooth_f diverge_th it sched st) as Hc.
  rewrite Hrun in Hc.
  destruct Hc as (w' & raw & lr0 & rest & lrs' & _ & Hget & Hget' & Hst & Hout).
  injection Hout as -> _.
  rewrite Hheld in Hget. injection Hget as Hget.
  split.
  - destruct (optimizer st) as [|g gs] eqn:Hopt; [discriminate|].
    simpl in Hget. injection Hget as Hg _.
    exists g, gs. split; [reflexivity|]. subst st'. simpl. rewrite Hg. reflexivity.
  - rewrite Hget'. f_equal. subst st'. simpl. symmetry.
    apply assign_lrs_lr.
    rewrite (get_lr_length _ _ Hget'). simpl.
    rewrite <- (get_lr_length _ _ Hheld), length_map. reflexivity.
Qed.

End LRFinder.

(** * Concrete runs *)

Lemma trim_nothing {A} (xs : list A) : trim 0 0 xs = xs.
Proof.
  rewrite trim_drops by lia. simpl. rewrite !Nat.sub_0_r. apply firstn_all.
Qed.

(** Deciding the comparisons of concrete floats that stand at the head of
    the computation. *)
Ltac decide_reals :=
  repeat match goal with
  | |- context [Req_dec_T ?a ?b] =>
      first [ destruct (Req_dec_T a b); [|exfalso; lra]
            | destruct (Req_dec_T a b); [exfalso; lra|] ]
  | |- context [Rlt_dec ?a ?b] =>
      first [ destruct (Rlt_dec a b); [|exfalso; lra]
            | destruct (Rlt_dec a b); [exfalso; lra|] ]
  | |- context [Rle_dec ?a ?b] =>
      first [ destruct (Rle_dec a b); [|exfalso; lra]
            | destruct (Rle_dec a b); [exfalso; lra|] ]
  end.

Ltac float_decide := unfold float_gt, float_lt, float_ge; decide_reals.

Ltac evaluate :=
  repeat (progress (
    cbn -[IZR Rdiv Rmult Rplus Rminus Rlt_dec Req_dec_T Rle_dec Rinv Ropp
          policy_of_mode];
    unfold truediv, float_gt, float_lt, float_ge, float_pow, get_lr,
      LinearLR_get_lr, ExponentialLR_get_lr, ratio, bind, iteration_body,
      record_iteration, gets, modify, lift, ret, raise, call_step,
      LRScheduler_step, assign_from_get_lr, track_loss, schedule_at,
      epoch_of_iteration, step, with_last_epoch, index, reset_results;
    decide_reals)).

(** A linear sweep of two iterations from the rate 1 to the rate 3, on the
    raw losses 2 and 1, without smoothing: History is [(1, 2), (3, 1)], the
    best loss is 1, both losses are consumed, and the optimizer is left
    with the rate of iteration index 2. *)
Example linear_run :
  exists st',
    range_test false (list R) None 3 2 "linear" 0 5
      (mk_state (list R) (mk_Step (list R) scripted_step scripted_reset) None
         [mk_group 1 None] [] [] None [2; 1]) = (st', Ok tt) /\
    history_lr _ st' = [1; 3] /\
    history_loss _ st' = [2; 1] /\
    best_loss _ st' = Some 1 /\
    map lr (optimizer _ st') = [5] /\
    world _ st' = [].
Proof.
  unfold range_test, bind. rewrite range_test_setup_spec.
  change (policy_of_mode "linear") with (Some LinearLR_class).
  change (Z.to_nat 2) with 2%nat.
  evaluate.
  eexists. split; [reflexivity|].
  cbn -[IZR Rdiv Rmult Rplus Rminus Rinv Ropp].
  repeat split; repeat f_equal; lra.
Qed.

(** An exponential sweep of three planned iterations, before PyTorch
    1.1.0, with [start_lr = 2] broadcast to two groups, the step mode
    written "EXP", [smooth_f = 1/2] and [diverge_th = 3], on the raw losses
    1, 9, 1, 4: the second recorded loss is 5, it exceeds 3 times the best
    loss 1, and the sweep stops with two records and two losses left. *)
Example diverging_run :
  exists st',
    range_test true (list R) (Some (Scalar 2)) 8 3 "EXP" (1/2) 3
      (mk_state (list R) (mk_Step (list R) scripted_step scripted_reset) None
         [mk_group 1 None; mk_group 7 None] [] [] None [1; 9; 1; 4]) =
    (st', Ok tt) /\
    history_loss _ st' = [1; 5] /\
    best_loss _ st' = Some 1 /\
    world _ st' = [1; 4] /\
    List.length (history_lr _ st') = 2%nat /\
    nth 0 (history_lr _ st') 0 = 2.
Proof.
  unfold range_test, bind. rewrite range_test_setup_spec.
  change (policy_of_mode "EXP") with (Some ExponentialLR_class).
  change (Z.to_nat 3) with 3%nat.
  unfold fits, groups_at_start. rewrite truthy_nonzero by lra.
  evaluate.
  eexists. split; [reflexivity|].
  cbn -[IZR Rdiv Rmult Rplus Rminus Rinv Ropp].
  repeat split; repeat f_equal; try lra.
  replace (0 / 2) with 0 by lra. rewrite Rpower_O by lra. lra.
Qed.

(** The example of the spec: the gradient of the losses
    [1.0, 0.8, 0.5, 0.3, 0.4, 2.0] is least at index 1 (and again at
    index 2), and [plot] returns the learning rate of index 1. *)
Example plot_suggests_steepest_rate :
  plot (list R) 0 0 ShowNone true
    (mk_state (list R) (mk_Step (list R) scripted_step scripted_reset) None
       [mk_group 1 (Some (1/100000))]
       [1/100000; 1/10000; 1/1000; 1/100; 1/10; 1]
       [1; 4/5; 1/2; 3/10; 2/5; 2]
       (Some (3/10)) []) =
  Ok (mk_plot_output
        [1/100000; 1/10000; 1/1000; 1/100; 1/10; 1]
        [1; 4/5; 1/2; 3/10; 2/5; 2]
        (Some (1/10000, 4/5)) (Some (1/10000))).
Proof.
  rewrite (plot_suggestion (list R) 0 0 ShowNone _ 1);
    try lia; try discriminate;
    cbn [history_lr history_loss]; rewrite ?trim_nothing;
    try reflexivity; try (simpl; lia).
  unfold steepest, gradient. simpl. float_decide. reflexivity.
Qed.

(** C8, where the code departs from it: on the losses [1.0, 0.5, 0.4, 0.4]
    the gradient [-0.5, -0.3, -0.05, 0] is least at index 0; [plot] marks
    the point of index 0 on the axes as the suggestion, yet returns the
    axes alone, without the learning rate of that index. *)
Theorem plot_drops_suggestion_at_index_zero :
  steepest [1; 1/2; 2/5; 2/5] = Ok (Some O) /\
  plot (list R) 0 0 ShowNone true
    (mk_state (list R) (mk_Step (list R) scripted_step scripted_reset) None
       [mk_group 1 (Some (1/1000))]
       [1/1000; 1/100; 1/10; 1]
       [1; 1/2; 2/5; 2/5]
       (Some (2/5)) []) =
  Ok (mk_plot_output
        [1/1000; 1/100; 1/10; 1]
        [1; 1/2; 2/5; 2/5]
        (Some (1/1000, 1)) None).
Proof.
  assert (H : steepest [1; 1/2; 2/5; 2/5] = Ok (Some O)).
  { unfold steepest, gradient. simpl. float_decide. reflexivity. }
  split; [exact H|].
  rewrite (plot_suggestion (list R) 0 0 ShowNone _ 0);
    try lia; try discriminate;
    cbn [history_lr history_loss]; rewrite ?trim_nothing;
    try reflexivity; try (simpl; lia).
  exact H.
Qed.

(** A linear sweep of two iterations over one parameter group of rate 1,
    towards the rate 3, on the raw losses 2 and 1, returns. *)
Lemma two_iterations_return :
  exists st',
    range_test false (list R) None 3 2 "linear" 0 5
      (mk_state (list R) (mk_Step (list R) scripted_step scripted_reset) None
         [mk_group 1 None] [] [] None [2; 1]) = (st', Ok tt).
Proof.
  apply (range_test_returns false (list R) None 3 2 "linear" 0 5 _ LinearLR_class);
    try reflexivity; try lia; try lra.
  intros i Hi. apply linear_schedule_yields. lia.
Qed.

(** Witness of C3: the run above returns, with as many learning rates as
    losses in History. *)
Lemma sweep_stops_at_divergence_witness :
  exists st',
    range_test false (list R) None 3 2 "linear" 0 5
      (mk_state (list R) (mk_Step (list R) scripted_step scripted_reset) None
         [mk_group 1 None] [] [] None [2; 1]) = (st', Ok tt) /\
    List.length (history_lr (list R) st') = List.length (history_loss (list R) st').
Proof.
  destruct two_iterations_return as [st' Hrun].
  exists st'. split; [exact Hrun|].
  exact (proj1 (sweep_stops_at_divergence false (list R) _ _ _ _ _ _ _ _ Hrun)).
Defined.

(** Witness of C10: after the run above, a second call raises. *)
Lemma second_range_test_conflicts_witness :
  exists st',
    range_test false (list R) None 3 2 "linear" 0 5
      (mk_state (list R) (mk_Step (list R) scripted_step scripted_reset) None
         [mk_group 1 None] [] [] None [2; 1]) = (st', Ok tt) /\
    snd (range_test false (list R) None 3 2 "linear" 0 5 st') =
    Raise (RuntimeError "Optimizer already has a scheduler attached to it").
Proof.
  destruct two_iterations_return as [st' Hrun].
  exists st'. split; [exact Hrun|].
  destruct (second_range_test_conflicts false (list R) _ _ _ _ _ _ _ _ Hrun)
    as (_ & _ & H).
  rewrite H. reflexivity.
Defined.

(** Witness of C5: [num_iter = 1]. *)
Lemma range_test_fails_before_loop_witness :
  (1 <= 1)%Z /\
  snd (range_test false (list R) None 10 1 "exp" (1/20) 5
         (mk_state (list R) (mk_Step (list R) scripted_step scripted_reset) None
            [mk_group 1 None] [] [] None [2; 1])) =
  Raise (ValueError "`num_iter` must be larger than 1").
Proof.
  split; [lia|].
  destruct (range_test_fails_before_loop false (list R) None 10 1 "exp" (1/20) 5
              (mk_state (list R) (mk_Step (list R) scripted_step scripted_reset) None
                 [mk_group 1 None] [] [] None [2; 1])
              (or_introl (Z.le_refl 1)))
    as (_ & _ & _ & _ & _ & _ & H).
  destruct (H eq_refl eq_refl) as [_ H'].
  destruct (H' ExponentialLR_class eq_refl) as [H'' _].
  exact (proj1 (H'' ltac:(lia))).
Defined.

(** Counterexample of C5 as stated.  A call with the unknown step mode
    "cosine" and [start_lr = 5] raises, yet the rate of the parameter
    group has changed from 1 to 5; a call on a finder whose optimizer
    carries ["initial_lr"] raises, yet its History of two records and its
    BestLoss are gone. *)
Lemma range_test_error_changes_state :
  (let st := mk_state (list R) (mk_Step (list R) scripted_step scripted_reset) None
               [mk_group 1 None] [] [] None [2; 1] in
   let out := range_test false (list R) (Some (Scalar 5)) 10 100 "cosine" (1/20) 5 st in
   snd out = Raise (ValueError "expected one of (exp, linear), got cosine") /\
   map lr (optimizer (list R) st) = [1] /\
   map lr (optimizer (list R) (fst out)) = [5] /\
   optimizer (list R) (fst out) <> optimizer (list R) st) /\
  (let st := mk_state (list R) (mk_Step (list R) scripted_step scripted_reset) None
               [mk_group 5 (Some 1)] [1; 3] [2; 1] (Some 1) [] in
   let out := range_test false (list R) None 10 100 "exp" (1/20) 5 st in
   snd out = Raise (RuntimeError "Optimizer already has a scheduler attached to it") /\
   history_loss (list R) st = [2; 1] /\ best_loss (list R) st = Some 1 /\
   history_loss (list R) (fst out) = [] /\ best_loss (list R) (fst out) = None /\
   history_loss (list R) (fst out) <> history_loss (list R) st /\
   best_loss (list R) (fst out) <> best_loss (list R) st).
Proof.
  split.
  - cbv zeta. unfold range_test, bind. rewrite range_test_setup_spec. cbv zeta.
    cbn [optimizer check_groups has_initial_lr initial_lr].
    unfold fits, groups_at_start. rewrite truthy_nonzero by lra.
    cbn. repeat split; try reflexivity.
    intros H. injection H as H. lra.
  - cbv zeta. rewrite range_test_marked by reflexivity.
    repeat split; try reflexivity; discriminate.
Qed.

(** The failing input of C6: with [start_lr = 0.0] the schedule starts
    from the optimizer's own rate 1, not from 0. *)
Example zero_start_lr_keeps_rate :
  exists st1 sched,
    range_test_setup false (list R) (Some (Scalar 0)) 3 2 "linear" 0
      (mk_state (list R) (mk_Step (list R) scripted_step scripted_reset) None
         [mk_group 1 None] [] [] None [2; 1]) = (st1, Ok sched) /\
    base_lrs sched = [1].
Proof.
  rewrite range_test_setup_spec. cbv zeta.
  cbn [optimizer check_groups has_initial_lr initial_lr].
  unfold fits, groups_at_start. rewrite truthy_zero.
  cbn [negb map lr].
  change (policy_of_mode "linear") with (Some LinearLR_class). cbv iota.
  change (2 <=? 1)%Z with false. cbv iota.
  change (mk_scheduler LinearLR_class 3 2 [1] 0) with
    (mk_scheduler LinearLR_class 3 2 [1] (epoch_of_iteration false 0)).
  rewrite LinearLR_at by lia.
  replace (float_lt 0 0 || float_ge 0 1) with false.
  2:{ symmetry. apply not_true_is_false. intros H. apply float_checks in H. lra. }
  eexists. eexists. split; reflexivity.
Qed.

(** * Further properties outside the run *)

(** X20: from PyTorch 1.1.0 on, the rate recorded for an iteration is the
    rate in use during it: when the steps before the loop return, the
    parameter groups hold the rates of the schedule; an iteration that
    starts so records the rate the first group holds while the executors
    run, and leaves the groups holding the rates of the advanced
    schedule. *)
Theorem recorded_rate_is_rate_in_use :
  (forall (W : Type) start_lr e N step_mode smooth_f (st st1 : state W) sched,
     range_test_setup false W start_lr e N step_mode smooth_f st = (st1, Ok sched) ->
     get_lr false sched = Ok (map lr (optimizer W st1))) /\
  (forall (W : Type) smooth_f diverge_th it sched sched' (st st' : state W) brk,
     get_lr false sched = Ok (map lr (optimizer W st)) ->
     iteration_body false W smooth_f diverge_th it sched st = (st', Ok (sched', brk)) ->
     (exists g gs,
        optimizer W st = g :: gs /\
        history_lr W st' = history_lr W st ++ [lr g]) /\
     get_lr false sched' = Ok (map lr (optimizer W st'))).
Proof.
  split.
  - intros W start_lr e N step_mode smooth_f st st1 sched.
    rewrite range_test_setup_spec. cbv zeta.
    destruct (check_groups (optimizer W st)) as [[]|?]; [|discriminate].
    destruct (negb (fits start_lr (optimizer W st))); [discriminate|].
    destruct (policy_of_mode step_mode) as [c|]; [|discriminate].
    destruct (N <=? 1)%Z; [discriminate|].
    destruct (get_lr false _) as [lrs|err] eqn:Hget; [|discriminate].
    destruct (float_lt smooth_f 0 || float_ge smooth_f 1); [discriminate|].
    intros H. injection H as <- <-. simpl.
    unfold schedule_at, epoch_of_iteration. rewrite Hget. f_equal. symmetry.
    apply assign_lrs_lr.
    rewrite (get_lr_length _ _ _ Hget). simpl. rewrite !length_map. reflexivity.
  - intros W smooth_f diverge_th it sched sched' st st' brk.
    apply iteration_keeps_rates_in_step.
Qed.

(** ** Moving a batch to a device *)

Section MoveProperties.

Variables tensor device key leaf : Type.
Variable to_ : tensor -> device -> bool -> tensor.

Lemma pyobj_nested_ind (P : pyobj tensor key leaf -> Prop) :
  (forall t, P (HasTo t)) ->
  (forall xs, Forall P xs -> P (PyTuple xs)) ->
  (forall xs, Forall P xs -> P (PyList xs)) ->
  (forall items, Forall (fun kv => P (snd kv)) items -> P (PyDict items)) ->
  (forall a, P (Leaf a)) ->
  forall obj, P obj.
Proof.
  intros HTo HTuple HList HDict HLeaf.
  fix IH 1. intros [t|xs|xs|items|a].
  - apply HTo.
  - apply HTuple. induction xs as [|x xs IHxs]; constructor; [apply IH|exact IHxs].
  - apply HList. induction xs as [|x xs IHxs]; constructor; [apply IH|exact IHxs].
  - apply HDict. induction items as [|[k o] items IHitems]; constructor;
      [apply IH|exact IHitems].
  - apply HLeaf.
Qed.

Lemma map_ext_Forall {A B} (f g : A -> B) (xs : list A) :
  Forall (fun x => f x = g x) xs -> map f xs = map g xs.
Proof.
  induction 1 as [|x xs Hx Hxs IH]; simpl; [reflexivity|].
  rewrite Hx, IH. reflexivity.
Qed.

Lemma flat_map_ext_Forall {A B} (f g : A -> list B) (xs : list A) :
  Forall (fun x => f x = g x) xs -> flat_map f xs = flat_map g xs.
Proof.
  induction 1 as [|x xs Hx Hxs IH]; simpl; [reflexivity|].
  rewrite Hx, IH. reflexivity.
Qed.

Lemma flat_map_map {A B C} (f : A -> B) (g : B -> list C) (xs : list A) :
  flat_map g (map f xs) = flat_map (fun x => g (f x)) xs.
Proof.
  induction xs as [|x xs IH]; simpl; [reflexivity|]. rewrite IH. reflexivity.
Qed.

Lemma map_flat_map {A B C} (f : B -> C) (g : A -> list B) (xs : list A) :
  map f (flat_map g xs) = flat_map (fun x => map f (g x)) xs.
Proof.
  induction xs as [|x xs IH]; simpl; [reflexivity|].
  rewrite map_app, IH. reflexivity.
Qed.

Lemma flat_map_nil {A B} (f : A -> list B) (xs : list A) :
  flat_map f xs = [] -> Forall (fun x => f x = []) xs.
Proof.
  induction xs as [|x xs IH]; simpl; intros H; constructor.
  - apply app_eq_nil in H. apply H.
  - apply IH. apply app_eq_nil in H. apply H.
Qed.

Lemma move_shape (obj : pyobj tensor key leaf) (d : device) (nb : bool) :
  shape (move to_ obj d nb) = shape obj.
Proof.
  induction obj as [t|xs IH|xs IH|items IH|a] using pyobj_nested_ind; simpl;
    try reflexivity.
  - f_equal. rewrite map_map. apply map_ext_Forall. exact IH.
  - f_equal. rewrite map_map. apply map_ext_Forall. exact IH.
  - f_equal. rewrite map_map. apply map_ext_Forall.
    eapply Forall_impl; [|exact IH]. intros [k o] H. simpl in *. rewrite H. reflexivity.
Qed.

Lemma move_movables (obj : pyobj tensor key leaf) (d : device) (nb : bool) :
  movables (move to_ obj d nb) = map (fun t => to_ t d nb) (movables obj).
Proof.
  induction obj as [t|xs IH|xs IH|items IH|a] using pyobj_nested_ind; simpl;
    try reflexivity.
  - rewrite flat_map_map, map_flat_map. apply flat_map_ext_Forall. exact IH.
  - rewrite flat_map_map, map_flat_map. apply flat_map_ext_Forall. exact IH.
  - rewrite flat_map_map, map_flat_map. apply flat_map_ext_Forall. exact IH.
Qed.

Lemma move_nothing (obj : pyobj tensor key leaf) (d : device) (nb : bool) :
  movables obj = [] -> move to_ obj d nb = obj.
Proof.
  induction obj as [t|xs IH|xs IH|items IH|a] using pyobj_nested_ind; simpl;
    intros Hnil; try reflexivity; try discriminate.
  - f_equal. rewrite <- (map_id xs) at 2. apply map_ext_Forall.
    apply flat_map_nil in Hnil.
    rewrite Forall_forall in *. intros x Hx. apply IH; [exact Hx|apply Hnil, Hx].
  - f_equal. rewrite <- (map_id xs) at 2. apply map_ext_Forall.
    apply flat_map_nil in Hnil.
    rewrite Forall_forall in *. intros x Hx. apply IH; [exact Hx|apply Hnil, Hx].
  - f_equal. rewrite <- (map_id items) at 2. apply map_ext_Forall.
    apply flat_map_nil in Hnil.
    rewrite Forall_forall in *. intros [k o] Hx.
    specialize (IH _ Hx (Hnil _ Hx)). simpl in *. rewrite IH. reflexivity.
Qed.

(** X21: [_move_to_device] yields one result per argument and changes
    nothing but the objects that have the attribute [to]: tuples stay
    tuples, lists stay lists, dicts keep their keys in order, other objects
    are returned as they are; the objects with [to] are each replaced,
    in place and in order, by the result of their [to]; and arguments
    without any such object are returned unchanged. *)
Theorem move_to_device_structure (things : list (pyobj tensor key leaf))
    (d : device) (non_blocking : bool) :
  let moved := _move_to_device to_ things d non_blocking in
  List.length moved = List.length things /\
  map shape moved = map shape things /\
  flat_map movables moved =
  map (fun t => to_ t d non_blocking) (flat_map movables things) /\
  (flat_map movables things = [] -> moved = things).
Proof.
  unfold _move_to_device. cbv zeta. split; [apply length_map|]. split; [|split].
  - rewrite map_map. apply map_ext. intros o. apply move_shape.
  - rewrite flat_map_map, map_flat_map. apply flat_map_ext.
    intros o. apply move_movables.
  - intros Hnil. rewrite <- (map_id things) at 2. apply map_ext_Forall.
    apply flat_map_nil in Hnil. eapply Forall_impl; [|exact Hnil].
    intros o Ho. apply move_nothing. exact Ho.
Qed.

(** X22: when a second [to] overrides the first, as a transfer between
    devices does, moving a batch to one device and then to another gives
    what moving it to the second device alone gives. *)
Theorem move_to_device_twice (things : list (pyobj tensor key leaf))
    (d1 d2 : device) (nb1 nb2 : bool) :
  (forall t, to_ (to_ t d1 nb1) d2 nb2 = to_ t d2 nb2) ->
  _move_to_device to_ (_move_to_device to_ things d1 nb1) d2 nb2 =
  _move_to_device to_ things d2 nb2.
Proof.
  intros Hto. unfold _move_to_device. rewrite map_map. apply map_ext.
  intros obj.
  induction obj as [t|xs IH|xs IH|items IH|a] using pyobj_nested_ind; simpl;
    try reflexivity.
  - rewrite Hto. reflexivity.
  - f_equal. rewrite map_map. apply map_ext_Forall. exact IH.
  - f_equal. rewrite map_map. apply map_ext_Forall. exact IH.
  - f_equal. rewrite map_map. apply map_ext_Forall.
    eapply Forall_impl; [|exact IH]. intros [k o] H. simpl in *. rewrite H. reflexivity.
Qed.

End MoveProperties.

(** * Witnesses of the further properties *)

Lemma linear_history_closed_form_witness :
  policy_of_mode "linear" = Some LinearLR_class /\
  nth 1 (history_lr (list R)
           (fst (range_test false (list R) None 3 2 "linear" 0 5
                   (mk_state (list R) (mk_Step (list R) scripted_step scripted_reset)
                      None [mk_group 1 None] [] [] None [2; 1])))) 0 =
  1 + IZR (Z.of_nat 1) / IZR (2 - 1) * (3 - 1).
Proof.
  split; [reflexivity|].
  destruct linear_run as (st' & Hrun & Hlr & _).
  pose proof (linear_history_closed_form false (list R) None 3 2 "linear" 0 5
                (mk_state (list R) (mk_Step (list R) scripted_step scripted_reset)
                   None [mk_group 1 None] [] [] None [2; 1]) 1 eq_refl) as H.
  cbv zeta in H. rewrite Hrun in *. simpl fst in *. rewrite Hlr in *.
  destruct (H ltac:(simpl; lia)) as (b0 & others & Hb & Hv).
  simpl in Hb. injection Hb as <- _. exact Hv.
Defined.

Lemma exponential_history_closed_form_witness :
  policy_of_mode "EXP" = Some ExponentialLR_class /\ 0 < 8 /\
  nth 1 (history_lr (list R)
           (fst (range_test true (list R) (Some (Scalar 2)) 8 3 "EXP" (1/2) 3
                   (mk_state (list R) (mk_Step (list R) scripted_step scripted_reset)
                      None [mk_group 1 None; mk_group 7 None] [] [] None
                      [1; 9; 1; 4])))) 0 =
  2 * Rpower (8 / 2) (IZR (Z.of_nat 1) / IZR (3 - 1)).
Proof.
  assert (H8 : 0 < 8) by lra.
  split; [reflexivity|]. split; [exact H8|].
  destruct diverging_run as (st' & Hrun & _ & _ & _ & Hlen & _).
  pose proof (exponential_history_closed_form true (list R) (Some (Scalar 2)) 8 3
                "EXP" (1/2) 3
                (mk_state (list R) (mk_Step (list R) scripted_step scripted_reset)
                   None [mk_group 1 None; mk_group 7 None] [] [] None [1; 9; 1; 4])
                1 eq_refl H8) as H.
  cbv zeta in H. rewrite Hrun in *. simpl fst in *. rewrite Hlen in H.
  destruct (H ltac:(lia)) as (b0 & others & Hb & Hv).
  unfold groups_at_start in Hb. rewrite truthy_nonzero in Hb by lra.
  simpl in Hb. injection Hb as <- _. apply Hv. lra.
Defined.

Lemma linear_run_leaves_scheduled_rates_witness :
  exists st',
    policy_of_mode "linear" = Some LinearLR_class /\
    range_test false (list R) None 3 2 "linear" 0 5
      (mk_state (list R) (mk_Step (list R) scripted_step scripted_reset) None
         [mk_group 1 None] [] [] None [2; 1]) = (st', Ok tt) /\
    map lr (optimizer (list R) st') =
    map (fun b => b + IZR (Z.of_nat (List.length (history_lr (list R) st'))) /
                     IZR (2 - 1) * (3 - b))
        (map lr (groups_at_start None [mk_group 1 None])).
Proof.
  destruct two_iterations_return as [st' Hrun].
  exists st'. split; [reflexivity|]. split; [exact Hrun|].
  exact (linear_run_leaves_scheduled_rates false (list R) None 3 2 "linear"
           0 5 _ st' eq_refl Hrun).
Defined.

Lemma plot_after_range_test_returns_witness :
  (0 <= 10)%Z /\ (0 <= 5)%Z /\ ShowNone <> ShowOther /\
  exists drawn,
    plot (list R) 10 5 ShowNone true
      (fst (range_test false (list R) None 3 2 "linear" 0 5
              (mk_state (list R) (mk_Step (list R) scripted_step scripted_reset)
                 None [mk_group 1 None] [] [] None [2; 1]))) = Ok drawn.
Proof.
  assert (Hshow : ShowNone <> ShowOther) by discriminate.
  split; [lia|]. split; [lia|]. split; [exact Hshow|].
  destruct two_iterations_return as [st' Hrun].
  apply (proj1 (plot_after_range_test_returns false (list R) None 3 2 "linear" 0 5
                  (mk_state (list R) (mk_Step (list R) scripted_step scripted_reset)
                     None [mk_group 1 None] [] [] None [2; 1])
                  10 5 ShowNone true ltac:(lia) ltac:(lia) Hshow)).
  rewrite Hrun. reflexivity.
Defined.

Lemma plot_short_history_no_suggestion_witness :
  (0 <= 10)%Z /\ (0 <= 5)%Z /\ ShowNone <> ShowOther /\
  plot (list R) 10 5 ShowNone true
    (mk_state (list R) (mk_Step (list R) scripted_step scripted_reset) None
       [mk_group 5 (Some 1)] [1; 3] [2; 1] (Some 1) []) =
  Ok (mk_plot_output (trim 10 5 [1; 3]) (trim 10 5 [2; 1]) None None).
Proof.
  assert (Hshow : ShowNone <> ShowOther) by discriminate.
  split; [lia|]. split; [lia|]. split; [exact Hshow|].
  exact (plot_short_history_no_suggestion (list R) 10 5 ShowNone
           (mk_state (list R) (mk_Step (list R) scripted_step scripted_reset) None
              [mk_group 5 (Some 1)] [1; 3] [2; 1] (Some 1) [])
           ltac:(lia) ltac:(lia) Hshow eq_refl ltac:(simpl; lia)).
Defined.

Lemma constructed_run_blocks_next_witness :
  [mk_group 1 None] <> [] /\ (1 < 2)%Z /\
  snd (range_test false (list R) None 3 2 "linear" 0 5
         (fst (range_test false (list R) None 3 2 "linear" 7 5
                 (mk_state (list R) (mk_Step (list R) scripted_step scripted_reset)
                    None [mk_group 1 None] [] [] None [2; 1])))) =
  Raise (RuntimeError "Optimizer already has a scheduler attached to it").
Proof.
  assert (Hne : [mk_group 1 None] <> []) by discriminate.
  split; [exact Hne|]. split; [lia|].
  destruct (constructed_run_blocks_next false (list R) None 3 2 "linear" 7 5
              (mk_state (list R) (mk_Step (list R) scripted_step scripted_reset)
                 None [mk_group 1 None] [] [] None [2; 1])
              LinearLR_class Hne eq_refl eq_refl eq_refl ltac:(lia))
    as (_ & H & _).
  rewrite H. reflexivity.
Defined.

Lemma early_errors_leave_no_marker_witness :
  policy_of_mode "cosine" = None /\
  existsb has_initial_lr
    (optimizer (list R)
       (fst (range_test false (list R) None 3 2 "cosine" 0 5
               (mk_state (list R) (mk_Step (list R) scripted_step scripted_reset)
                  None [mk_group 1 None] [] [] None [2; 1])))) = false.
Proof.
  split; [reflexivity|].
  exact (proj2 (early_errors_leave_no_marker false (list R) None 3 2 "cosine" 0 5
                  (mk_state (list R) (mk_Step (list R) scripted_step scripted_reset)
                     None [mk_group 1 None] [] [] None [2; 1])
                  eq_refl (or_intror (or_introl eq_refl)))).
Defined.

Lemma exponential_zero_rate_raises_witness :
  (1 < 2)%Z /\ 0 < 3 /\
  snd (range_test false (list R) None 3 2 "exp" 0 5
         (mk_state (list R) (mk_Step (list R) scripted_step scripted_reset)
            None [mk_group 0 None] [] [] None [2; 1])) = Raise ZeroDivisionError.
Proof.
  assert (H3 : 0 < 3) by lra.
  split; [lia|]. split; [exact H3|].
  assert (Hnn : Forall (fun g => 0 <= lr g)
                  (groups_at_start None [mk_group 0 None])).
  { constructor; [simpl; lra | constructor]. }
  assert (Hz : Exists (fun g => lr g = 0)
                 (groups_at_start None [mk_group 0 None])).
  { constructor. reflexivity. }
  exact (proj1 (exponential_zero_rate_raises false (list R) None 3 2 "exp" 0 5
                  (mk_state (list R) (mk_Step (list R) scripted_step scripted_reset)
                     None [mk_group 0 None] [] [] None [2; 1])
                  eq_refl eq_refl eq_refl ltac:(lia) H3 Hnn Hz)).
Defined.

Lemma validation_loss_is_recorded_witness :
  world (list R)
    (fst (iteration_body false (list R) 0 5 0
            (schedule_at false LinearLR_class 3 2 [1] 0)
            (mk_state (list R) (mk_Step (list R) scripted_step scripted_reset)
               (Some (mk_Step (list R) scripted_step scripted_reset))
               [mk_group 1 (Some 1)] [] [] None [7; 3; 2]))) = [2].
Proof.
  exact (proj1 (validation_loss_is_recorded false (list R) 0 5 0
                  (schedule_at false LinearLR_class 3 2 [1] 0)
                  (mk_state (list R) (mk_Step (list R) scripted_step scripted_reset)
                     (Some (mk_Step (list R) scripted_step scripted_reset))
                     [mk_group 1 (Some 1)] [] [] None [7; 3; 2])
                  (mk_Step (list R) scripted_step scripted_reset)
                  [3; 2] [2] 7 3 eq_refl eq_refl eq_refl)).
Defined.

Lemma range_test_outlasts_data_witness :
  exists st',
    range_test false (list R) None 3 5 "linear" 0 5
      (mk_state (list R)
         (mk_Step (list R) scripted_step (scripted_rewind [2; 1])) None
         [mk_group 1 None] [] [] None [2; 1]) = (st', Ok tt).
Proof.
  apply (range_test_outlasts_data false (list R) None 3 5 "linear" 0 5
           (mk_state (list R)
              (mk_Step (list R) scripted_step (scripted_rewind [2; 1])) None
              [mk_group 1 None] [] [] None [2; 1]));
    try reflexivity; try lia; try lra; try discriminate.
  - intros w w1 H. simpl in *. destruct w as [|x w]; simpl in H; [|discriminate].
    exists [2; 1], [1], 2. split; reflexivity.
  - intros w w1 err H. simpl in *. destruct w as [|x w]; simpl in H; [|discriminate].
    injection H as _ <-. reflexivity.
Defined.

Lemma linear_range_test_returns_witness :
  exists st',
    range_test false (list R) None 3 2 "linear" 0 5
      (mk_state (list R) (mk_Step (list R) scripted_step scripted_reset) None
         [mk_group 1 None] [] [] None [2; 1]) = (st', Ok tt) /\
    (1 <= Z.of_nat (List.length (history_loss (list R) st')) <= 2)%Z.
Proof.
  apply (linear_range_test_returns false (list R) None 3 2 "linear" 0 5
           (mk_state (list R) (mk_Step (list R) scripted_step scripted_reset) None
              [mk_group 1 None] [] [] None [2; 1]));
    try reflexivity; try lia; try lra; try discriminate.
Defined.

Lemma executor_error_propagates_witness :
  let out := range_test false (list R) None 3 2 "linear" 0 5
               (mk_state (list R) (mk_Step (list R) scripted_step scripted_reset)
                  None [mk_group 1 None] [] [] None [2]) in
  snd out = Raise StopIteration /\
  history_loss (list R) (fst out) = recorded 0 [2] /\
  List.length (history_lr (list R) (fst out)) = 1%nat /\
  world (list R) (fst out) = [].
Proof.
  apply (executor_error_propagates false (list R) None 3 2 "linear" 0 5
           (mk_state (list R) (mk_Step (list R) scripted_step scripted_reset)
              None [mk_group 1 None] [] [] None [2]) 1 [] StopIteration);
    try reflexivity; try lia; try lra; try discriminate.
  intros j Hj. replace j with O by lia.
  unfold diverges, recorded, recorded_loss. simpl. float_decide. reflexivity.
Defined.

Lemma move_to_device_twice_witness :
  _move_to_device (fun (t : nat * nat) (d : nat) (_ : bool) => (fst t, d))
    (_move_to_device (fun (t : nat * nat) (d : nat) (_ : bool) => (fst t, d))
       [PyTuple [HasTo (7, 0)%nat; PyDict [("x"%string, Leaf tt)]]] 1%nat true)
    2%nat true =
  _move_to_device (fun (t : nat * nat) (d : nat) (_ : bool) => (fst t, d))
    [PyTuple [HasTo (7, 0)%nat; PyDict [("x"%string, Leaf tt)]]] 2%nat true.
Proof.
  apply (move_to_device_twice (nat * nat) nat string unit
           (fun (t : nat * nat) (d : nat) (_ : bool) => (fst t, d))).
  intros t. reflexivity.
Defined.


(** * Witnesses of the claims about the losses *)

(** Witness of C2: in the diverging run above, two losses are recorded, and
    the second is the smoothing of the raw loss 9 against the recorded
    loss 1. *)
Lemma recorded_losses_are_smoothed_witness :
  let out := range_test true (list R) (Some (Scalar 2)) 8 3 "EXP" (1/2) 3
               (mk_state (list R) (mk_Step (list R) scripted_step scripted_reset)
                  None [mk_group 1 None; mk_group 7 None] [] [] None
                  [1; 9; 1; 4]) in
  snd out = Ok tt /\
  (1 <= List.length (history_loss (list R) (fst out)))%nat /\
  nth 1 (history_loss (list R) (fst out)) 0 =
  1/2 * 9 + (1 - 1/2) * nth 0 (history_loss (list R) (fst out)) 0.
Proof.
  intros out.
  pose proof (recorded_losses_are_smoothed true (list R) (Some (Scalar 2)) 8 3
                "EXP" (1/2) 3
                (mk_state (list R) (mk_Step (list R) scripted_step scripted_reset)
                   None [mk_group 1 None; mk_group 7 None] [] [] None
                   [1; 9; 1; 4])) as H.
  cbv zeta in H. fold out in H.
  destruct diverging_run as (st' & Hrun & Hloss & _).
  fold out in Hrun.
  destruct H as (_ & Hrec & Hok & _).
  assert (Hres : snd out = Ok tt) by (rewrite Hrun; reflexivity).
  split; [exact Hres|]. split; [exact (proj1 (Hok Hres))|].
  assert (Hlen : List.length (history_loss (list R) (fst out)) = 2%nat)
    by (rewrite Hrun; simpl; rewrite Hloss; reflexivity).
  rewrite Hlen in Hrec.
  destruct (Hrec 1%nat ltac:(lia)) as [_ Hsm].
  apply Hsm. split; [lia|lra].
Defined.

(** Witness of C4: the linear run above returns with BestLoss set, to the
    least of its two recorded losses. *)
Lemma best_loss_is_running_minimum_witness :
  let out := range_test false (list R) None 3 2 "linear" 0 5
               (mk_state (list R) (mk_Step (list R) scripted_step scripted_reset)
                  None [mk_group 1 None] [] [] None [2; 1]) in
  snd out = Ok tt /\ best_loss (list R) (fst out) = Some 1.
Proof.
  intros out.
  destruct linear_run as (st' & Hrun & _ & Hloss & _).
  fold out in Hrun.
  assert (Hres : snd out = Ok tt) by (rewrite Hrun; reflexivity).
  split; [exact Hres|].
  destruct (best_loss_is_running_minimum false (list R) 0 5)
    as (_ & _ & _ & _ & Hrun_level).
  destruct (Hrun_level None 3 2%Z "linear"%string
              (mk_state (list R) (mk_Step (list R) scripted_step scripted_reset)
                 None [mk_group 1 None] [] [] None [2; 1])) as [_ Hset].
  fold out in Hset.
  destruct (Hset Hres) as (b & Hb & Hin & Hall).
  rewrite Hb. f_equal.
  rewrite Hrun in Hin, Hall. simpl in Hin, Hall. rewrite Hloss in Hin, Hall.
  inversion Hall as [|? ? H2 Hall']. inversion Hall' as [|? ? H1 _].
  unfold float_lt in H1, H2.
  destruct (Rlt_dec 2 b), (Rlt_dec 1 b); try discriminate.
  destruct Hin as [<-|[<-|[]]]; lra.
Defined.


(** * The schedules in binary64 arithmetic *)

Section Binary64Properties.

Import PrimFloat SpecFloat FloatOps FloatAxioms.

(* Python prints a float by its shortest decimal that reads back as it;
   the decimals below are read the same way. *)
Set Warnings "-inexact-float".

(** ** Rounding of a mantissa that needs none *)










(** ** The float operations at 0 and 1 *)









(** ** The ratio at the two ends of a sweep *)







End Binary64Properties.
